(** * Ch03_CNN/Ex03A/plotting_cnn.py: the two plotting helpers

    [plot_image] and [plot_channels] are straight-line sequences of calls
    into matplotlib.  They are embedded as computations in a small
    state-and-exception monad.  The state holds the memory in which numpy
    arrays live, and the sequence of calls the plotting library has
    received; the library itself is a parameter of the development. *)

From stdpp Require Import gmap strings list pretty.

(** ** Python exceptions that can leave the two functions *)

Inductive exn :=
  | IndexError               (* tuple index out of range: [a.shape[k]] *)
  | TypeError                (* [iter(x)] on an object that is not iterable *)
  | AttributeError           (* [x.imshow] on an object without that method *)
  | ValueError
  | BackendError (code : nat).

(** ** numpy arrays

    An [ndarray] is a view: a C-contiguous window of [shape] into the
    buffer at address [base], starting [offset] elements in.  Iterating an
    array yields views of the same buffer, as numpy does. *)

Record ndarray := NDArray { base : nat; offset : nat; shape : list nat }.

Definition ndarray_size (a : ndarray) : nat := foldr Nat.mul 1 (shape a).

Definition subarray (a : ndarray) (rest : list nat) (i : nat) : ndarray :=
  {| base := base a;
     offset := offset a + i * foldr Nat.mul 1 rest;
     shape := rest |}.

(** What Python's [zip] yields for three sequences: it stops at the
    shortest. *)
Fixpoint zip3 {A B C} (xs : list A) (ys : list B) (zs : list C) : list (A * B * C) :=
  match xs, ys, zs with
  | x :: xs', y :: ys', z :: zs' => (x, y, z) :: zip3 xs' ys' zs'
  | _, _, _ => []
  end.

(** [range(start, stop)] *)
Definition py_range (start stop : nat) : list nat := seq start (stop - start).

(** ** What [plt.subplots] hands back

    Either one Axes object, a one-dimensional array of Axes, or a
    two-dimensional one.  Axes are named by handles. *)

Inductive axobj :=
  | Axes (a : nat)
  | AxesRow (row : list nat)
  | AxesGrid (rows : list (list nat)).

(** The handles of a freshly created [nrows] x [ncols] grid of subplots. *)
Definition grid_ids (first nrows ncols : nat) : list (list nat) :=
  (λ r, seq (first + r * ncols) ncols) <$> seq 0 nrows.

(** Calls are addressed to pyplot's current axes ([plt.f(...)]) or to an
    Axes object ([ax.f(...)]). *)
Inductive target := Pyplot | OnAxes (a : nat).

Section Renderers.

(** Pixel values are opaque to the two functions. *)
Context {pixel : Type}.

Definition ndarray_data (m : gmap nat (list pixel)) (a : ndarray) : list pixel :=
  take (ndarray_size a) (drop (offset a) (default [] (m !! base a))).

(** The calls the two functions make into the plotting library, with the
    arguments they pass. *)
Inductive call :=
  | Subplots (nrows ncols : nat)
  | Imshow (t : target) (shp : list nat) (data : list pixel)
           (cmap aspect : string) (extent : list nat)
  | Grid (t : target) (color : string) (linewidth : nat)
  | SetTitle (t : target) (label : string)
  | SetXticks (t : target) (ticks : list nat)
  | SetYticks (t : target) (ticks : list nat)
  | TightLayout
  | ShowFigure.

(** The plotting library: which calls it rejects, given the calls it has
    seen so far, and in what form [subplots] returns the axes it made. *)
Record backend := Backend {
  fault : list call → call → option exn;
  pack : list (list nat) → axobj
}.

Record world := World {
  mem : gmap nat (list pixel);   (* array buffers, by address *)
  trace : list call;             (* calls received by the library, oldest first *)
  fresh : nat                    (* next unused Axes handle *)
}.

Inductive outcome (A : Type) :=
  | Return (a : A) (w : world)
  | Raise (e : exn) (w : world).
Global Arguments Return {A} a w.
Global Arguments Raise {A} e w.

Definition final {A} (o : outcome A) : world :=
  match o with Return _ w => w | Raise _ w => w end.

Definition M (A : Type) : Type := world → outcome A.

Global Instance M_ret : MRet M := λ A a w, Return a w.
Global Instance M_bind : MBind M := λ A B f m w,
  match m w with
  | Return a w' => f a w'
  | Raise e w' => Raise e w'
  end.

Definition raise {A} (e : exn) : M A := λ w, Raise e w.

Fixpoint for_each {A} (body : A → M unit) (l : list A) : M unit :=
  match l with
  | [] => mret tt
  | x :: l' => body x;; for_each body l'
  end.

(** [a.shape[k]] *)
Definition shape_at (a : ndarray) (k : nat) : M nat :=
  match shape a !! k with
  | Some n => mret n
  | None => raise IndexError
  end.

(** [iter(a)] for an array *)
Definition iter_ndarray (a : ndarray) : M (list ndarray) :=
  match shape a with
  | [] => raise TypeError
  | n :: rest => mret (subarray a rest <$> seq 0 n)
  end.

(** [iter(axs)] for what [subplots] returned *)
Definition iter_axobj (o : axobj) : M (list axobj) :=
  match o with
  | Axes _ => raise TypeError
  | AxesRow row => mret (Axes <$> row)
  | AxesGrid rows => mret (AxesRow <$> rows)
  end.

(** Looking up a drawing method ([ax.imshow], ...) on an object. *)
Definition axes_method (o : axobj) : M target :=
  match o with
  | Axes a => mret (OnAxes a)
  | _ => raise AttributeError
  end.

Variable B : backend.

Definition log_call (c : call) (w : world) : world :=
  {| mem := mem w; trace := trace w ++ [c]; fresh := fresh w |}.

(** A call into the library: it is received, and either returns or
    raises the library's own exception. *)
Definition invoke (c : call) : M unit := λ w,
  match fault B (trace w) c with
  | Some e => Raise e (log_call c w)
  | None => Return tt (log_call c w)
  end.

(** The library reads the pixels of the array it is given. *)
Definition read_pixels (a : ndarray) : M (list pixel) := λ w,
  Return (ndarray_data (mem w) a) w.

Definition imshow (t : target) (a : ndarray) (cmap aspect : string)
    (extent : list nat) : M unit :=
  data ← read_pixels a;
  invoke (Imshow t (shape a) data cmap aspect extent).

(** [plt.subplots(nrows, ncols)]; the figure it also returns is never
    used by the caller and is left out. *)
Definition subplots (nrows ncols : nat) : M axobj := λ w,
  match invoke (Subplots nrows ncols) w with
  | Return _ w' =>
      Return (pack B (grid_ids (fresh w) nrows ncols))
             {| mem := mem w'; trace := trace w';
                fresh := fresh w' + nrows * ncols |}
  | Raise e w' => Raise e w'
  end.

(** ** The two functions *)

Definition plot_image (image : ndarray) : M unit :=
  c ← shape_at image 1;
  r ← shape_at image 0;
  imshow Pyplot image "gray" "equal" [0; c; 0; r];;
  invoke (Grid Pyplot "red" 1);;
  c ← shape_at image 1;
  invoke (SetXticks Pyplot (py_range 0 (c + 1)));;
  r ← shape_at image 0;
  invoke (SetYticks Pyplot (py_range 0 (r + 1)));;
  invoke TightLayout;;
  invoke ShowFigure.

Definition plot_channel (item : ndarray * axobj * nat) : M unit :=
  let '(channel, ax, i) := item in
  t ← axes_method ax;
  c ← shape_at channel 1;
  r ← shape_at channel 0;
  imshow t channel "gray" "equal" [0; c; 0; r];;
  t ← axes_method ax;
  invoke (Grid t "red" 1);;
  t ← axes_method ax;
  invoke (SetTitle t ("Channel " +:+ pretty i));;
  t ← axes_method ax;
  c ← shape_at channel 1;
  invoke (SetXticks t (py_range 0 (c + 1)));;
  t ← axes_method ax;
  r ← shape_at channel 0;
  invoke (SetYticks t (py_range 0 (r + 1))).

Definition plot_channels (channels : ndarray) : M unit :=
  n ← shape_at channels 0;
  axs ← subplots 1 n;
  n ← shape_at channels 0;
  cs ← iter_ndarray channels;
  xs ← iter_axobj axs;
  for_each plot_channel (zip3 cs xs (py_range 0 n));;
  invoke TightLayout;;
  invoke ShowFigure.

End Renderers.

Arguments call : clear implicits.
Arguments backend : clear implicits.
Arguments world : clear implicits.

(** ** matplotlib

    The plotting library is an external collaborator (spec, section 6) and
    no part of the repository.  The three definitions below say what the
    development takes it to do. *)

(** The shapes the library's [imshow] draws.  The spec names an image of
    invalid shape as the library's own failure (section 4.1) and lists no
    shapes; the list is the library's: a two-dimensional array (M, N),
    and (M, N, 1), which it treats as (M, N), (M, N, 3) and (M, N, 4).
    The theorems on images and on stacks use the two-dimensional case
    only. *)
Definition image_shape_ok (shp : list nat) : bool :=
  match shp with
  | [_; _] => true
  | [_; _; d] => (d =? 1) || (d =? 3) || (d =? 4)
  | _ => false
  end.

(** Modelled from the spec: the form in which the library's [subplots]
    returns the axes it created ("the subplot container returned by the
    backend for a single-subplot row is not an iterable collection",
    section 4.2).  It is numpy's [squeeze] of the grid: a 1 x 1 grid
    becomes the Axes object itself, a grid of one row or one column a
    one-dimensional array. *)
Definition squeeze (rows : list (list nat)) : axobj :=
  match rows with
  | [[a]] => Axes a
  | [row] => AxesRow row
  | _ => if forallb (λ row, length row =? 1) rows
         then AxesRow (concat rows) else AxesGrid rows
  end.

(** Modelled from the spec: the library's own failures (section 7).  An
    image of invalid shape is a TypeError; a grid with no rows or no
    columns is a ValueError, the library asking for a positive number of
    each. *)
Definition mpl_fault {pixel} (_ : list (call pixel)) (c : call pixel) : option exn :=
  match c with
  | Subplots nrows ncols =>
      if (nrows =? 0) || (ncols =? 0) then Some ValueError else None
  | Imshow _ shp _ _ _ _ =>
      if image_shape_ok shp then None else Some TypeError
  | _ => None
  end.

Definition matplotlib {pixel} : backend pixel :=
  {| fault := mpl_fault; pack := squeeze |}.

(** ** Observations on a run *)

Inductive renderer := PlotImage | PlotChannels.

Definition run {pixel} (B : backend pixel) (f : renderer) (a : ndarray) : M unit :=
  match f with
  | PlotImage => plot_image B a
  | PlotChannels => plot_channels B a
  end.

(** The calls the library received between two states. *)
Definition calls_since {pixel} (w w' : world pixel) : list (call pixel) :=
  drop (length (trace w)) (trace w').

Definition emitted {pixel A} (m : @M pixel A) (w : world pixel) : list (call pixel) :=
  calls_since w (final (m w)).

(** What a call configures, when it configures anything. *)
Definition extent_of {pixel} (c : call pixel) : option (list nat) :=
  match c with Imshow _ _ _ _ _ e => Some e | _ => None end.

Definition aspect_of {pixel} (c : call pixel) : option string :=
  match c with Imshow _ _ _ _ a _ => Some a | _ => None end.

Definition xticks_of {pixel} (c : call pixel) : option (list nat) :=
  match c with SetXticks _ l => Some l | _ => None end.

Definition yticks_of {pixel} (c : call pixel) : option (list nat) :=
  match c with SetYticks _ l => Some l | _ => None end.

Definition title_of {pixel} (c : call pixel) : option string :=
  match c with SetTitle _ s => Some s | _ => None end.

Definition regions_of {pixel} (c : call pixel) : option (nat * nat) :=
  match c with Subplots nrows ncols => Some (nrows, ncols) | _ => None end.

Inductive setting :=
  | Regions (nrows ncols : nat)
  | Extent (e : list nat)
  | Title (s : string)
  | Xticks (l : list nat)
  | Yticks (l : list nat).

Definition setting_of {pixel} (c : call pixel) : option setting :=
  match c with
  | Subplots nrows ncols => Some (Regions nrows ncols)
  | Imshow _ _ _ _ _ e => Some (Extent e)
  | SetTitle _ s => Some (Title s)
  | SetXticks _ l => Some (Xticks l)
  | SetYticks _ l => Some (Yticks l)
  | _ => None
  end.

(** Subplot count, extents, titles and ticks configured by a sequence of
    calls, in order. *)
Definition configuration {pixel} (cs : list (call pixel)) : list setting :=
  omap setting_of cs.

(** A call without the pixels it carries and without the handle it is
    addressed to. *)
Definition erase {pixel} (c : call pixel) : call pixel :=
  match c with
  | Subplots nrows ncols => Subplots nrows ncols
  | Imshow _ shp _ cmap aspect e => Imshow Pyplot shp [] cmap aspect e
  | Grid _ color lw => Grid Pyplot color lw
  | SetTitle _ s => SetTitle Pyplot s
  | SetXticks _ l => SetXticks Pyplot l
  | SetYticks _ l => SetYticks Pyplot l
  | TightLayout => TightLayout
  | ShowFigure => ShowFigure
  end.

(** The calls [plot_image] makes for an [R] x [C] image. *)
Definition image_calls {pixel} (m : gmap nat (list pixel)) (image : ndarray)
    (R C : nat) : list (call pixel) :=
  [ Imshow Pyplot [R; C] (ndarray_data m image) "gray" "equal" [0; C; 0; R];
    Grid Pyplot "red" 1;
    SetXticks Pyplot (seq 0 (C + 1));
    SetYticks Pyplot (seq 0 (R + 1));
    TightLayout;
    ShowFigure ].

(** The calls [plot_channels] makes for channel [i] of a stack of
    [R] x [C] channels, on the subplot with handle [first + i]. *)
Definition channel_calls {pixel} (m : gmap nat (list pixel)) (channels : ndarray)
    (R C first i : nat) : list (call pixel) :=
  let t := OnAxes (first + i) in
  [ Imshow t [R; C] (ndarray_data m (subarray channels [R; C] i))
      "gray" "equal" [0; C; 0; R];
    Grid t "red" 1;
    SetTitle t ("Channel " +:+ pretty i);
    SetXticks t (seq 0 (C + 1));
    SetYticks t (seq 0 (R + 1)) ].

(** Two objects returned by [subplots] that differ in handles only. *)
Definition same_form (o1 o2 : axobj) : Prop :=
  match o1, o2 with
  | Axes _, Axes _ => True
  | AxesRow r1, AxesRow r2 => length r1 = length r2
  | AxesGrid g1, AxesGrid g2 => length <$> g1 = length <$> g2
  | _, _ => False
  end.

(** ** Properties of computations *)

(** The exceptions Python itself raises in the two functions: an index, an
    iteration or a method the object does not have. *)
Definition python_error (e : exn) : Prop :=
  e = IndexError ∨ e = TypeError ∨ e = AttributeError.

Section Properties.

Context {pixel : Type}.
Variable B : backend pixel.

(** The computation writes no array buffer. *)
Definition frames {A} (m : @M pixel A) : Prop :=
  ∀ w, mem (final (m w)) = mem w.

(** The computation only adds calls to those the library has received,
    and each added call satisfies [P]. *)
Definition emits (P : call pixel → Prop) {A} (m : @M pixel A) : Prop :=
  ∀ w, ∃ cs, trace (final (m w)) = trace w ++ cs ∧ Forall P cs.

(** A call the library rejects is the last one made, and its exception
    is the outcome; and an exception that is the outcome is the library's,
    from the last call made, or one of Python's own. *)
Definition propagates {A} (m : @M pixel A) : Prop :=
  ∀ w, ∃ cs, trace (final (m w)) = trace w ++ cs ∧
    (∀ pre c post e, cs = pre ++ c :: post →
      fault B (trace w ++ pre) c = Some e →
      post = [] ∧ m w = Raise e (final (m w))) ∧
    (∀ e w', m w = Raise e w' →
      python_error e ∨
      ∃ pre c, cs = pre ++ [c] ∧ fault B (trace w ++ pre) c = Some e).

(** Two computations make the same calls up to [erase] and end the same
    way, with results related by [R], from any two states. *)
Definition lockstep {A} (R : A → A → Prop) (m1 m2 : @M pixel A) : Prop :=
  ∀ w1 w2, ∃ cs1 cs2,
    trace (final (m1 w1)) = trace w1 ++ cs1 ∧
    trace (final (m2 w2)) = trace w2 ++ cs2 ∧
    erase <$> cs1 = erase <$> cs2 ∧
    match m1 w1, m2 w2 with
    | Return a1 _, Return a2 _ => R a1 a2
    | Raise e1 _, Raise e2 _ => e1 = e2
    | _, _ => False
    end.

(** [a] is a possible result of the computation. *)
Definition returns {A} (m : @M pixel A) (a : A) : Prop :=
  ∃ w w', m w = Return a w'.


End Properties.


(** ** Sample inputs *)

Definition buffer6 : gmap nat (list Z) := {[ 0 := [5; 6; 7; 8; 9; 10]%Z ]}.
Definition idle : world Z := {| mem := buffer6; trace := []; fresh := 0 |}.
Definition image_1x1 : ndarray := NDArray 0 0 [1; 1].
Definition image_2x3 : ndarray := NDArray 0 0 [2; 3].
Definition stack_1x2x3 : ndarray := NDArray 0 0 [1; 2; 3].
Definition stack_2x1x3 : ndarray := NDArray 0 0 [2; 1; 3].
Definition stack_0x2x3 : ndarray := NDArray 0 0 [0; 2; 3].

Definition busy : world Z :=
  {| mem := {[ 0 := [0; 0; 0; 0; 0; 0]%Z ]};
     trace := [Subplots 1 4; TightLayout; ShowFigure];
     fresh := 4 |}.

(** A library without a display surface: [show] fails. *)
Definition headless : backend Z :=
  {| fault := λ _ c, match c with ShowFigure => Some (BackendError 1) | _ => None end;
     pack := squeeze |}.

(** ** Further observations *)

(** The Axes a drawing call is addressed to. *)
Definition target_of {pixel} (c : call pixel) : option target :=
  match c with
  | Imshow t _ _ _ _ _ | Grid t _ _ | SetTitle t _
  | SetXticks t _ | SetYticks t _ => Some t
  | _ => None
  end.

(** The pixels an [imshow] call displays. *)
Definition data_of {pixel} (c : call pixel) : option (list pixel) :=
  match c with Imshow _ _ d _ _ _ => Some d | _ => None end.

(** What a sequence of calls draws, whatever it is drawn on: pixels,
    aspect, extents and ticks. *)
Definition rendering {pixel} (cs : list (call pixel)) :=
  (omap data_of cs, omap aspect_of cs, omap extent_of cs,
   omap xticks_of cs, omap yticks_of cs).

(** The six calls of [plot_image], in the order of the source, for an
    array whose first two dimensions are [R] and [C]. *)
Definition image_script {pixel} (m : gmap nat (list pixel)) (image : ndarray)
    (R C : nat) : list (call pixel) :=
  [ Imshow Pyplot (shape image) (ndarray_data m image) "gray" "equal" [0; C; 0; R];
    Grid Pyplot "red" 1;
    SetXticks Pyplot (seq 0 (C + 1));
    SetYticks Pyplot (seq 0 (R + 1));
    TightLayout;
    ShowFigure ].

(** The number of dimensions the first shape access of each function
    needs: [image.shape[1]] and [channels.shape[0]]. *)
Definition min_dims (f : renderer) : nat :=
  match f with PlotImage => 2 | PlotChannels => 1 end.

(** What every call of [plot_channels] on a stack of [N] channels looks
    like. *)
Definition channels_call_ok {pixel} (N : nat) (c : call pixel) : Prop :=
  (∀ r k, regions_of c = Some (r, k) → r = 1 ∧ k = N) ∧
  (∀ t, target_of c = Some t → ∃ h, t = OnAxes h) ∧
  (∀ s, title_of c = Some s → ∃ i, i < N ∧ s = "Channel " +:+ pretty i).

(** The handles of the Axes in what [subplots] returned. *)
Definition handles_of (o : axobj) : list nat :=
  match o with
  | Axes a => [a]
  | AxesRow row => row
  | AxesGrid rows => concat rows
  end.

(** [plot_channels] from the loop on: what it does once [subplots] has
    returned [axs]. *)
Definition channels_loop {pixel} (B : backend pixel) (channels : ndarray)
    (axs : axobj) : M unit :=
  n ← shape_at channels 0;
  cs ← iter_ndarray channels;
  xs ← iter_axobj axs;
  for_each (plot_channel B) (zip3 cs xs (py_range 0 n));;
  invoke B TightLayout;;
  invoke B ShowFigure.

(** Every shape index, iteration and method lookup of the function exists
    on the input: an image of two dimensions or more; a stack of three
    dimensions or more for which [subplots] hands back a one-dimensional
    array of Axes. *)
Definition operable {pixel} (B : backend pixel) (f : renderer) (a : ndarray)
    (w : world pixel) : Prop :=
  match f with
  | PlotImage => 2 ≤ length (shape a)
  | PlotChannels =>
      3 ≤ length (shape a) ∧
      ∃ row, pack B (grid_ids (fresh w) 1 (default 0 (shape a !! 0))) = AxesRow row
  end.

(** The computation only adds calls to those the library has received,
    and raises nothing but what the library raised at the last of them. *)
Definition library_only {pixel} (B : backend pixel) {A} (m : @M pixel A) : Prop :=
  ∀ w, ∃ cs, trace (final (m w)) = trace w ++ cs ∧
    ∀ e w', m w = Raise e w' →
      ∃ pre c, cs = pre ++ [c] ∧ fault B (trace w ++ pre) c = Some e.

(** A call made in the loop of [plot_channels]: it creates no subplots,
    and if it draws, it draws on one of the Axes of [axs]. *)
Definition loop_call_ok {pixel} (axs : axobj) (c : call pixel) : Prop :=
  regions_of c = None ∧
  ∀ t, target_of c = Some t → ∃ h, t = OnAxes h ∧ h ∈ handles_of axs.

Global Instance target_eq_dec : EqDecision target.
Proof. solve_decision. Defined.

(** The calls among [cs] that are addressed to the Axes with handle [h]. *)
Definition calls_on {pixel} (h : nat) (cs : list (call pixel)) : list (call pixel) :=
  filter (λ c, target_of c = Some (OnAxes h)) cs.

(** The state in which the loop of [plot_channels] starts on matplotlib:
    the grid of one row and [N] columns has been created. *)
Definition after_subplots {pixel} (N : nat) (w : world pixel) : world pixel :=
  {| mem := mem w; trace := trace w ++ [Subplots 1 N]; fresh := fresh w + N |}.

(** The triples [zip] yields in [plot_channels] on matplotlib, for a
    stack whose channels have shape [rest]. *)
Definition channel_items (a : ndarray) (rest : list nat) (first N : nat)
    : list (ndarray * axobj * nat) :=
  (λ i, (subarray a rest i, Axes (first + i), i)) <$> seq 0 N.

Definition busy' : world Z :=
  {| mem := buffer6; trace := [Subplots 1 4; TightLayout; ShowFigure]; fresh := 4 |}.
Definition vector_6 : ndarray := NDArray 0 0 [6].
Definition stack_2x3 : ndarray := NDArray 0 0 [2; 3].

(** * Proofs *)

Create HintDb frames.
Create HintDb emits.
Create HintDb propagates.

(** ** The monad *)

Section Monad.

Context {pixel : Type}.
Implicit Types w : world pixel.

Lemma run_bind {A C} (m : @M pixel A) (k : A → M C) w :
  (m ≫= k) w =
  match m w with Return a w' => k a w' | Raise e w' => Raise e w' end.
Proof. reflexivity. Qed.

Lemma run_return {A C} (m : @M pixel A) (k : A → M C) w a w' :
  m w = Return a w' → (m ≫= k) w = k a w'.
Proof. intros E. rewrite run_bind, E. reflexivity. Qed.

Lemma run_raise {A C} (m : @M pixel A) (k : A → M C) w e w' :
  m w = Raise e w' → (m ≫= k) w = Raise e w'.
Proof. intros E. rewrite run_bind, E. reflexivity. Qed.

Lemma calls_since_app w w' cs :
  trace w' = trace w ++ cs → calls_since w w' = cs.
Proof.
  intros E. unfold calls_since. rewrite E. apply drop_app_length.
Qed.

End Monad.

(** ** Frame: no array buffer is written *)

Section Frame.

Context {pixel : Type}.
Variable B : backend pixel.

Lemma frames_ret {A} (a : A) : frames (mret a : @M pixel A).
Proof. intros w. reflexivity. Qed.

Lemma frames_raise {A} e : frames (raise e : @M pixel A).
Proof. intros w. reflexivity. Qed.

Lemma frames_bind {A C} (m : @M pixel A) (k : A → M C) :
  frames m → (∀ a, frames (k a)) → frames (m ≫= k).
Proof.
  intros Hm Hk w. rewrite run_bind. specialize (Hm w).
  destruct (m w) as [a w'|e w']; simpl in *.
  - rewrite Hk. exact Hm.
  - exact Hm.
Qed.

Lemma frames_invoke c : frames (invoke B c).
Proof. intros w. unfold invoke. destruct (fault B (trace w) c); reflexivity. Qed.

Lemma frames_read_pixels a : frames (read_pixels (pixel:=pixel) a).
Proof. intros w. reflexivity. Qed.

Lemma frames_shape_at a k : frames (shape_at (pixel:=pixel) a k).
Proof. unfold shape_at. destruct (shape a !! k); [apply frames_ret|apply frames_raise]. Qed.

Lemma frames_iter_ndarray a : frames (iter_ndarray (pixel:=pixel) a).
Proof. unfold iter_ndarray. destruct (shape a); [apply frames_raise|apply frames_ret]. Qed.

Lemma frames_iter_axobj o : frames (iter_axobj (pixel:=pixel) o).
Proof. destruct o; simpl; first [apply frames_raise|apply frames_ret]. Qed.

Lemma frames_axes_method o : frames (axes_method (pixel:=pixel) o).
Proof. destruct o; simpl; first [apply frames_raise|apply frames_ret]. Qed.

Lemma frames_subplots nrows ncols : frames (subplots B nrows ncols).
Proof.
  intros w. unfold subplots, invoke.
  destruct (fault B (trace w) (Subplots nrows ncols)); reflexivity.
Qed.

Lemma frames_for_each {A} (body : A → @M pixel unit) l :
  (∀ x, frames (body x)) → frames (for_each body l).
Proof.
  intros Hb. induction l as [|x l IH]; simpl.
  - apply frames_ret.
  - apply frames_bind; [apply Hb | intros _; exact IH].
Qed.

#[local] Hint Resolve frames_ret frames_raise frames_bind frames_invoke
  frames_read_pixels frames_shape_at frames_iter_ndarray frames_iter_axobj
  frames_axes_method frames_subplots frames_for_each : frames.

Lemma frames_imshow t a cmap aspect e : frames (imshow B t a cmap aspect e).
Proof. unfold imshow. auto with frames. Qed.

#[local] Hint Resolve frames_imshow : frames.

Lemma frames_plot_image a : frames (plot_image B a).
Proof. unfold plot_image. auto 20 with frames. Qed.

Lemma frames_plot_channel item : frames (plot_channel B item).
Proof. destruct item as [[channel ax] i]. unfold plot_channel. auto 30 with frames. Qed.

#[local] Hint Resolve frames_plot_channel : frames.

Lemma frames_plot_channels a : frames (plot_channels B a).
Proof. unfold plot_channels. auto 20 with frames. Qed.

End Frame.

(** ** What the calls of a run look like *)

Section Emits.

Context {pixel : Type}.
Variable B : backend pixel.
Variable P : call pixel → Prop.

Lemma emits_ret {A} (a : A) : emits P (mret a : @M pixel A).
Proof. intros w. exists []. simpl. rewrite app_nil_r. auto. Qed.

Lemma emits_raise {A} e : emits P (raise e : @M pixel A).
Proof. intros w. exists []. simpl. rewrite app_nil_r. auto. Qed.

Lemma emits_bind {A C} (m : @M pixel A) (k : A → M C) :
  emits P m → (∀ a, returns m a → emits P (k a)) → emits P (m ≫= k).
Proof.
  intros Hm Hk w. rewrite run_bind. destruct (Hm w) as (cs1 & E1 & F1).
  destruct (m w) as [a w'|e w'] eqn:Em; simpl in *.
  - destruct (Hk a (ex_intro _ w (ex_intro _ w' Em)) w') as (cs2 & E2 & F2).
    exists (cs1 ++ cs2). rewrite E2, E1, app_assoc. split; [done|].
    by apply Forall_app.
  - by exists cs1.
Qed.

Lemma emits_invoke c : P c → emits P (invoke B c).
Proof.
  intros Hc w. exists [c]. unfold invoke.
  destruct (fault B (trace w) c); simpl; auto.
Qed.

Lemma emits_read_pixels a : emits P (read_pixels (pixel:=pixel) a).
Proof. intros w. exists []. simpl. rewrite app_nil_r. auto. Qed.

Lemma emits_shape_at a k : emits P (shape_at (pixel:=pixel) a k).
Proof. unfold shape_at. destruct (shape a !! k); [apply emits_ret|apply emits_raise]. Qed.

Lemma emits_iter_ndarray a : emits P (iter_ndarray (pixel:=pixel) a).
Proof. unfold iter_ndarray. destruct (shape a); [apply emits_raise|apply emits_ret]. Qed.

Lemma emits_iter_axobj o : emits P (iter_axobj (pixel:=pixel) o).
Proof. destruct o; simpl; first [apply emits_raise|apply emits_ret]. Qed.

Lemma emits_axes_method o : emits P (axes_method (pixel:=pixel) o).
Proof. destruct o; simpl; first [apply emits_raise|apply emits_ret]. Qed.

Lemma emits_subplots nrows ncols :
  P (Subplots nrows ncols) → emits P (subplots B nrows ncols).
Proof.
  intros Hc w. exists [Subplots nrows ncols]. unfold subplots, invoke.
  destruct (fault B (trace w) (Subplots nrows ncols)); simpl; auto.
Qed.

Lemma emits_imshow t a cmap aspect e :
  (∀ data, P (Imshow t (shape a) data cmap aspect e)) →
  emits P (imshow B t a cmap aspect e).
Proof.
  intros Hc. unfold imshow. apply emits_bind; [apply emits_read_pixels|].
  intros data _. apply emits_invoke, Hc.
Qed.

Lemma emits_for_each {A} (body : A → @M pixel unit) l :
  Forall (λ x, emits P (body x)) l → emits P (for_each body l).
Proof.
  induction 1 as [|x l Hx _ IH]; simpl.
  - apply emits_ret.
  - apply emits_bind; [exact Hx | intros _ _; exact IH].
Qed.

Lemma returns_shape_at a k n :
  returns (shape_at (pixel:=pixel) a k) n → shape a !! k = Some n.
Proof.
  intros (w & w' & E). unfold shape_at in E.
  destruct (shape a !! k); [|discriminate].
  by injection E as -> _.
Qed.

Lemma returns_iter_ndarray a l :
  returns (iter_ndarray (pixel:=pixel) a) l →
  ∃ n rest, shape a = n :: rest ∧ l = subarray a rest <$> seq 0 n.
Proof.
  intros (w & w' & E). unfold iter_ndarray in E.
  destruct (shape a) as [|n rest]; [discriminate|].
  injection E as <- _. eauto.
Qed.

End Emits.

Lemma zip3_fst {A B C} (xs : list A) (ys : list B) (zs : list C) (Q : A → Prop) :
  Forall Q xs → Forall (λ item, Q item.1.1) (zip3 xs ys zs).
Proof.
  intros H. revert ys zs.
  induction H as [|x xs Hx _ IH]; intros ys zs; [done|].
  destruct ys as [|y ys], zs as [|z zs]; simpl; try done.
  constructor; [exact Hx | apply IH].
Qed.

Section Layout.

Context {pixel : Type}.
Variable B : backend pixel.

#[local] Hint Resolve emits_ret emits_raise emits_read_pixels emits_shape_at
  emits_iter_ndarray emits_iter_axobj emits_axes_method : emits.

Ltac emits_bind := apply emits_bind; [solve [auto with emits] | intros ? ?].



End Layout.

(** ** Errors of the library end the run *)

Section Propagation.

Context {pixel : Type}.
Variable B : backend pixel.

Lemma propagates_silent {A} (m : @M pixel A) :
  (∀ w, final (m w) = w) →
  (∀ w e w', m w = Raise e w' → python_error e) →
  propagates B m.
Proof.
  intros Hm He w. exists []. rewrite Hm, app_nil_r. split; [done|]. split.
  - intros pre c post e Hnil. by destruct pre.
  - intros e w' Hr. left. by apply (He w e w').
Qed.

Lemma propagates_ret {A} (a : A) : propagates B (mret a : @M pixel A).
Proof. by apply propagates_silent. Qed.

Lemma propagates_raise {A} e :
  python_error e → propagates B (raise e : @M pixel A).
Proof.
  intros He. apply propagates_silent; [done|].
  intros w e' w' [= <- _]. exact He.
Qed.

Lemma propagates_read_pixels a : propagates B (read_pixels a).
Proof. by apply propagates_silent. Qed.

Lemma propagates_shape_at a k : propagates B (shape_at a k).
Proof.
  unfold shape_at. destruct (shape a !! k);
    [apply propagates_ret | apply propagates_raise; by left].
Qed.

Lemma propagates_iter_ndarray a : propagates B (iter_ndarray a).
Proof.
  unfold iter_ndarray. destruct (shape a);
    [apply propagates_raise; right; by left | apply propagates_ret].
Qed.

Lemma propagates_iter_axobj o : propagates B (iter_axobj o).
Proof.
  destruct o; simpl;
    first [apply propagates_ret | apply propagates_raise; right; by left].
Qed.

Lemma propagates_axes_method o : propagates B (axes_method o).
Proof.
  destruct o; simpl;
    first [apply propagates_ret | apply propagates_raise; right; by right].
Qed.

Lemma singleton_split (c c' : call pixel) pre post :
  [c] = pre ++ c' :: post → pre = [] ∧ c' = c ∧ post = [].
Proof.
  destruct pre as [|x pre]; simpl; intros E.
  - by injection E as -> <-.
  - injection E as _ E. by destruct pre.
Qed.

Lemma propagates_invoke c : propagates B (invoke B c).
Proof.
  intros w. exists [c]. split; [|split].
  - unfold invoke. by destruct (fault B (trace w) c).
  - intros pre c' post e Hsplit Hfault.
    apply singleton_split in Hsplit as (-> & -> & ->).
    rewrite app_nil_r in Hfault. unfold invoke. by rewrite Hfault.
  - intros e w'. unfold invoke.
    destruct (fault B (trace w) c) as [e'|] eqn:Hfault; [|done].
    intros [= <- _]. right. exists [], c. by rewrite app_nil_r.
Qed.

Lemma propagates_subplots nrows ncols : propagates B (subplots B nrows ncols).
Proof.
  intros w. exists [Subplots nrows ncols]. split; [|split].
  - unfold subplots, invoke.
    by destruct (fault B (trace w) (Subplots nrows ncols)).
  - intros pre c' post e Hsplit Hfault.
    apply singleton_split in Hsplit as (-> & -> & ->).
    rewrite app_nil_r in Hfault. unfold subplots, invoke. by rewrite Hfault.
  - intros e w'. unfold subplots, invoke.
    destruct (fault B (trace w) (Subplots nrows ncols)) as [e'|] eqn:Hfault; [|done].
    intros [= <- _]. right. exists [], (Subplots nrows ncols).
    by rewrite app_nil_r.
Qed.

Lemma propagates_bind {A C} (m : @M pixel A) (k : A → M C) :
  propagates B m → (∀ a, propagates B (k a)) → propagates B (m ≫= k).
Proof.
  intros Hm Hk w. rewrite run_bind.
  destruct (Hm w) as (cs1 & E1 & F1 & G1).
  destruct (m w) as [a w'|e w'] eqn:Em; simpl in *.
  - destruct (Hk a w') as (cs2 & E2 & F2 & G2).
    exists (cs1 ++ cs2). split; [by rewrite E2, E1, app_assoc|]. split.
    + intros pre c post e Hsplit Hfault.
      apply app_eq_app in Hsplit as [l [[-> Hl]|[-> ->]]].
      * destruct l as [|c' l]; simpl in Hl.
        -- subst cs2. rewrite app_nil_r in *.
           apply (F2 [] c post e); [done|]. by rewrite app_nil_r, E1.
        -- injection Hl as <- ->.
           by destruct (F1 pre c l e eq_refl Hfault) as [_ ?].
      * apply (F2 l c post e); [done|]. by rewrite E1, <- app_assoc.
    + intros e w'' Hr.
      destruct (G2 e w'' Hr) as [He|(pre & c & -> & Hfault)]; [by left|].
      right. exists (cs1 ++ pre), c. split; [by rewrite app_assoc|].
      by rewrite app_assoc, <- E1.
  - exists cs1. split; [done|]. split.
    + intros pre c post e0 Hsplit Hfault.
      destruct (F1 pre c post e0 Hsplit Hfault) as [-> Hr].
      split; [done|]. by injection Hr as -> .
    + intros e0 w'' [= <- <-]. by apply (G1 e w').
Qed.

Lemma propagates_for_each {A} (body : A → @M pixel unit) l :
  (∀ x, propagates B (body x)) → propagates B (for_each body l).
Proof.
  intros Hb. induction l as [|x l IH]; simpl.
  - apply propagates_ret.
  - apply propagates_bind; [apply Hb | intros _; exact IH].
Qed.

#[local] Hint Resolve propagates_ret propagates_bind
  propagates_invoke propagates_read_pixels propagates_shape_at
  propagates_iter_ndarray propagates_iter_axobj propagates_axes_method
  propagates_subplots propagates_for_each : propagates.

Lemma propagates_imshow t a cmap aspect e :
  propagates B (imshow B t a cmap aspect e).
Proof. unfold imshow. auto with propagates. Qed.

#[local] Hint Resolve propagates_imshow : propagates.

Lemma propagates_plot_image a : propagates B (plot_image B a).
Proof. unfold plot_image. auto 20 with propagates. Qed.

Lemma propagates_plot_channel item : propagates B (plot_channel B item).
Proof.
  destruct item as [[channel ax] i]. unfold plot_channel.
  auto 30 with propagates.
Qed.

#[local] Hint Resolve propagates_plot_channel : propagates.

Lemma propagates_plot_channels a : propagates B (plot_channels B a).
Proof. unfold plot_channels. auto 20 with propagates. Qed.

End Propagation.

(** ** Runs on matplotlib *)

Section Matplotlib.

Context {pixel : Type}.
Implicit Types w : world pixel.

Lemma plot_image_matplotlib w a R C :
  shape a = [R; C] →
  plot_image matplotlib a w =
  Return tt {| mem := mem w;
               trace := trace w ++ image_calls (mem w) a R C;
               fresh := fresh w |}.
Proof.
  intros Ha. unfold plot_image, shape_at, imshow, py_range. rewrite Ha. simpl.
  unfold mbind, M_bind, mret, M_ret, read_pixels, invoke, log_call. simpl.
  rewrite ?Ha. simpl. rewrite !Nat.sub_0_r.
  repeat rewrite <- app_assoc. reflexivity.
Qed.

Lemma plot_channel_matplotlib w a R C first i :
  plot_channel matplotlib (subarray a [R; C] i, Axes (first + i), i) w =
  Return tt {| mem := mem w;
               trace := trace w ++ channel_calls (mem w) a R C first i;
               fresh := fresh w |}.
Proof.
  unfold plot_channel, shape_at, imshow, py_range, axes_method. simpl.
  unfold mbind, M_bind, mret, M_ret, read_pixels, invoke, log_call. simpl.
  rewrite !Nat.sub_0_r.
  repeat rewrite <- app_assoc. reflexivity.
Qed.

Lemma zip3_fmap {A C D} (f : A → C) (g : A → D) (l : list A) :
  zip3 (f <$> l) (g <$> l) l = (λ i, (f i, g i, i)) <$> l.
Proof. induction l as [|x l IH]; [done|]. rewrite !fmap_cons. simpl. by f_equal. Qed.

Lemma for_each_channels w a R C first (l : list nat) :
  for_each (plot_channel matplotlib)
    ((λ i, (subarray a [R; C] i, Axes (first + i), i)) <$> l) w =
  Return tt {| mem := mem w;
               trace := trace w ++ concat (channel_calls (mem w) a R C first <$> l);
               fresh := fresh w |}.
Proof.
  revert w. induction l as [|i l IH]; intros w.
  - simpl. rewrite app_nil_r. by destruct w.
  - rewrite !fmap_cons. cbn [for_each concat].
    rewrite run_bind, plot_channel_matplotlib, IH. cbn [mem trace fresh].
    by rewrite <- app_assoc.
Qed.

Lemma squeeze_row first n :
  2 ≤ n → squeeze (grid_ids first 1 n) = AxesRow (seq first n).
Proof.
  intros Hn. unfold grid_ids. simpl. rewrite Nat.add_0_r.
  destruct n as [|[|n]]; [lia|lia|reflexivity].
Qed.

Lemma shape_at_some w a k n :
  shape a !! k = Some n → shape_at a k w = Return n w.
Proof. intros E. unfold shape_at. by rewrite E. Qed.

Lemma subplots_row w n :
  2 ≤ n →
  subplots matplotlib 1 n w =
  Return (AxesRow (seq (fresh w) n))
         {| mem := mem w; trace := trace w ++ [Subplots 1 n];
            fresh := fresh w + n |}.
Proof.
  intros Hn. unfold subplots, invoke. cbn [fault matplotlib mpl_fault].
  destruct (n =? 0) eqn:E0; [apply Nat.eqb_eq in E0; lia|].
  cbn [orb Nat.eqb pack log_call mem trace fresh].
  by rewrite squeeze_row, Nat.mul_1_l.
Qed.

Lemma plot_channels_matplotlib w a N R C :
  2 ≤ N → shape a = [N; R; C] →
  plot_channels matplotlib a w =
  Return tt {| mem := mem w;
               trace := trace w ++ Subplots 1 N ::
                          concat (channel_calls (mem w) a R C (fresh w) <$> seq 0 N)
                          ++ [TightLayout; ShowFigure];
               fresh := fresh w + N |}.
Proof.
  intros HN Ha. unfold plot_channels.
  erewrite run_return by (apply shape_at_some; by rewrite Ha).
  erewrite run_return by by apply subplots_row.
  erewrite run_return by (apply shape_at_some; by rewrite Ha).
  unfold iter_ndarray. rewrite Ha.
  erewrite run_return by reflexivity.
  erewrite run_return by reflexivity.
  unfold py_range. rewrite Nat.sub_0_r.
  replace (seq (fresh w) N) with (Nat.add (fresh w) <$> seq 0 N)
    by (by rewrite fmap_add_seq, Nat.add_0_r).
  rewrite <- list_fmap_compose.
  rewrite (zip3_fmap (subarray a [R; C]) (Axes ∘ Nat.add (fresh w))).
  erewrite run_return by apply for_each_channels.
  erewrite run_return by reflexivity.
  unfold invoke, log_call. cbn.
  repeat rewrite <- app_assoc. reflexivity.
Qed.

Lemma plot_channels_single w a rest :
  shape a = 1 :: rest →
  plot_channels matplotlib a w =
  Raise TypeError {| mem := mem w; trace := trace w ++ [Subplots 1 1];
                     fresh := fresh w + 1 |}.
Proof.
  intros Ha. unfold plot_channels, shape_at, iter_ndarray. rewrite Ha. simpl.
  reflexivity.
Qed.

Lemma plot_channels_rejected (B : backend pixel) w a rest e :
  shape a = 0 :: rest →
  fault B (trace w) (Subplots 1 0) = Some e →
  plot_channels B a w = Raise e (log_call (Subplots 1 0) w).
Proof.
  intros Ha He. unfold plot_channels, shape_at. rewrite Ha. simpl.
  rewrite run_bind. simpl. rewrite run_bind. unfold subplots, invoke.
  by rewrite He.
Qed.

End Matplotlib.

(** ** Two runs on arrays of the same shape *)

Lemma configuration_erase {pixel} (cs : list (call pixel)) :
  configuration (erase <$> cs) = configuration cs.
Proof.
  unfold configuration. induction cs as [|c cs IH]; [done|].
  rewrite fmap_cons. cbn [omap list_omap]. rewrite IH. by destruct c.
Qed.

Lemma zip3_Forall2 {A C D} (RA : A → A → Prop) (RC : C → C → Prop)
    (xs1 xs2 : list A) (ys1 ys2 : list C) (zs : list D) :
  Forall2 RA xs1 xs2 → Forall2 RC ys1 ys2 →
  Forall2 (λ i1 i2, RA i1.1.1 i2.1.1 ∧ RC i1.1.2 i2.1.2 ∧ i1.2 = i2.2)
          (zip3 xs1 ys1 zs) (zip3 xs2 ys2 zs).
Proof.
  intros Hx. revert ys1 ys2 zs.
  induction Hx as [|x1 x2 xs1 xs2 Hx _ IH]; intros ys1 ys2 zs Hy; [constructor|].
  destruct Hy as [|y1 y2 ys1 ys2 Hy Hys]; [constructor|].
  destruct zs as [|z zs]; simpl; [constructor|].
  constructor; [done | by apply IH].
Qed.

Lemma squeeze_same_form (g1 g2 : list (list nat)) :
  length <$> g1 = length <$> g2 → same_form (squeeze g1) (squeeze g2).
Proof.
  intros Hlen.
  assert (Hall : forallb (λ row, length row =? 1) g1 = forallb (λ row, length row =? 1) g2
                 ∧ length (concat g1) = length (concat g2)).
  { clear -Hlen. revert g2 Hlen.
    induction g1 as [|r1 g1 IH]; intros [|r2 g2] Hlen; try done.
    rewrite !fmap_cons in Hlen. injection Hlen as Hr Hg.
    destruct (IH g2 Hg) as [IH1 IH2]. simpl.
    rewrite !length_app, Hr, IH1, IH2. done. }
  destruct Hall as [Hall Hcat].
  destruct g1 as [|r1 [|r1' g1]], g2 as [|r2 [|r2' g2]]; try done.
  - injection Hlen as Hr.
    destruct r1 as [|a1 [|b1 r1]], r2 as [|a2 [|b2 r2]]; try done.
  - assert (Hsq : ∀ r r' g, squeeze (r :: r' :: g) =
        if forallb (λ row, length row =? 1) (r :: r' :: g)
        then AxesRow (concat (r :: r' :: g)) else AxesGrid (r :: r' :: g)).
    { by intros [|? [|? ?]] ? ?. }
    rewrite !Hsq, Hall. clear Hall.
    destruct (forallb _ (r2 :: _)); [exact Hcat | exact Hlen].
Qed.

Section Lockstep.

Context {pixel : Type}.
Variable B : backend pixel.

(** The library looks at neither pixels, handles nor its history when it
    decides to reject a call, and the form of what [subplots] returns
    depends on the grid's dimensions only. *)
Hypothesis fault_erase : ∀ tr1 tr2 c1 c2,
  erase c1 = erase c2 → fault B tr1 c1 = fault B tr2 c2.
Hypothesis pack_form : ∀ g1 g2,
  length <$> g1 = length <$> g2 → same_form (pack B g1) (pack B g2).

Lemma lockstep_ret {A} (R : A → A → Prop) a1 a2 :
  R a1 a2 → lockstep R (mret a1 : @M pixel A) (mret a2).
Proof. intros HR w1 w2. exists [], []. simpl. by rewrite !app_nil_r. Qed.

Lemma lockstep_raise {A} (R : A → A → Prop) e :
  lockstep R (raise e : @M pixel A) (raise e).
Proof. intros w1 w2. exists [], []. simpl. by rewrite !app_nil_r. Qed.

Lemma lockstep_bind {A C} (R : A → A → Prop) (S : C → C → Prop)
    (m1 m2 : @M pixel A) (k1 k2 : A → M C) :
  lockstep R m1 m2 →
  (∀ a1 a2, R a1 a2 → lockstep S (k1 a1) (k2 a2)) →
  lockstep S (m1 ≫= k1) (m2 ≫= k2).
Proof.
  intros Hm Hk w1 w2. rewrite !run_bind.
  destruct (Hm w1 w2) as (cs1 & cs2 & E1 & E2 & Ecs & HR).
  destruct (m1 w1) as [a1 w1'|e1 w1'], (m2 w2) as [a2 w2'|e2 w2'];
    simpl in *; try done.
  - destruct (Hk a1 a2 HR w1' w2') as (ds1 & ds2 & F1 & F2 & Eds & HS).
    exists (cs1 ++ ds1), (cs2 ++ ds2).
    rewrite F1, F2, E1, E2, !app_assoc, !fmap_app, Ecs, Eds. done.
  - by exists cs1, cs2.
Qed.

Lemma lockstep_invoke c1 c2 :
  erase c1 = erase c2 → lockstep eq (invoke B c1) (invoke B c2).
Proof.
  intros Hc w1 w2. exists [c1], [c2]. unfold invoke.
  rewrite (fault_erase (trace w1) (trace w2) c1 c2 Hc).
  destruct (fault B (trace w2) c2); simpl; by rewrite Hc.
Qed.

Lemma lockstep_read_pixels a1 a2 :
  lockstep (λ _ _, True) (read_pixels (pixel:=pixel) a1) (read_pixels a2).
Proof. intros w1 w2. exists [], []. simpl. by rewrite !app_nil_r. Qed.

Lemma lockstep_imshow t1 t2 a1 a2 cmap aspect e :
  shape a1 = shape a2 →
  lockstep eq (imshow B t1 a1 cmap aspect e) (imshow B t2 a2 cmap aspect e).
Proof.
  intros Ha. unfold imshow.
  eapply lockstep_bind; [apply lockstep_read_pixels|].
  intros d1 d2 _. apply lockstep_invoke. simpl. by rewrite Ha.
Qed.

Lemma lockstep_shape_at a1 a2 k :
  shape a1 = shape a2 →
  lockstep eq (shape_at (pixel:=pixel) a1 k) (shape_at a2 k).
Proof.
  intros Ha. unfold shape_at. rewrite Ha.
  destruct (shape a2 !! k); [by apply lockstep_ret | apply lockstep_raise].
Qed.

Lemma lockstep_iter_ndarray a1 a2 :
  shape a1 = shape a2 →
  lockstep (Forall2 (λ x y, shape x = shape y))
           (iter_ndarray (pixel:=pixel) a1) (iter_ndarray a2).
Proof.
  intros Ha. unfold iter_ndarray. rewrite Ha.
  destruct (shape a2) as [|n rest]; [apply lockstep_raise|].
  apply lockstep_ret, Forall2_fmap, Forall2_true; done.
Qed.

Lemma lockstep_subplots nrows ncols :
  lockstep same_form (subplots B nrows ncols) (subplots B nrows ncols).
Proof.
  intros w1 w2. exists [Subplots nrows ncols], [Subplots nrows ncols].
  unfold subplots, invoke.
  rewrite (fault_erase (trace w1) (trace w2) _ _ eq_refl).
  destruct (fault B (trace w2) _); simpl; [done|].
  repeat split. apply pack_form. unfold grid_ids.
  rewrite <- !list_fmap_compose. apply list_fmap_ext.
  intros _ r _. simpl. by rewrite !length_seq.
Qed.

Lemma lockstep_iter_axobj o1 o2 :
  same_form o1 o2 →
  lockstep (Forall2 same_form) (iter_axobj (pixel:=pixel) o1) (iter_axobj o2).
Proof.
  destruct o1 as [a1|r1|g1], o2 as [a2|r2|g2]; simpl; try done; intros Hf.
  - apply lockstep_raise.
  - apply lockstep_ret, Forall2_fmap, Forall2_true; done.
  - apply lockstep_ret, Forall2_fmap. simpl.
    apply list_eq_Forall2 in Hf. rewrite Forall2_fmap in Hf.
    eapply Forall2_impl; [exact Hf | done].
Qed.

Lemma lockstep_axes_method o1 o2 :
  same_form o1 o2 →
  lockstep (λ _ _, True) (axes_method (pixel:=pixel) o1) (axes_method o2).
Proof.
  destruct o1, o2; simpl; try done; intros _;
    first [by apply lockstep_ret | apply lockstep_raise].
Qed.

Lemma lockstep_for_each {A} (body : A → @M pixel unit) l1 l2 :
  Forall2 (λ x y, lockstep eq (body x) (body y)) l1 l2 →
  lockstep eq (for_each body l1) (for_each body l2).
Proof.
  induction 1 as [|x y l1 l2 Hxy _ IH]; simpl.
  - by apply lockstep_ret.
  - eapply lockstep_bind; [exact Hxy | intros _ _ _; exact IH].
Qed.

Lemma lockstep_plot_image a1 a2 :
  shape a1 = shape a2 → lockstep eq (plot_image B a1) (plot_image B a2).
Proof.
  intros Ha. unfold plot_image.
  eapply lockstep_bind; [by apply lockstep_shape_at|intros c ? <-].
  eapply lockstep_bind; [by apply lockstep_shape_at|intros r ? <-].
  eapply lockstep_bind; [by apply lockstep_imshow|intros _ _ _].
  eapply lockstep_bind; [by apply lockstep_invoke|intros _ _ _].
  eapply lockstep_bind; [by apply lockstep_shape_at|intros c' ? <-].
  eapply lockstep_bind; [by apply lockstep_invoke|intros _ _ _].
  eapply lockstep_bind; [by apply lockstep_shape_at|intros r' ? <-].
  eapply lockstep_bind; [by apply lockstep_invoke|intros _ _ _].
  eapply lockstep_bind; [by apply lockstep_invoke|intros _ _ _].
  by apply lockstep_invoke.
Qed.

Lemma lockstep_plot_channel c1 c2 x1 x2 i :
  shape c1 = shape c2 → same_form x1 x2 →
  lockstep eq (plot_channel B (c1, x1, i)) (plot_channel B (c2, x2, i)).
Proof.
  intros Hc Hx. unfold plot_channel.
  eapply lockstep_bind; [by apply lockstep_axes_method|intros t1 t2 _].
  eapply lockstep_bind; [by apply lockstep_shape_at|intros c ? <-].
  eapply lockstep_bind; [by apply lockstep_shape_at|intros r ? <-].
  eapply lockstep_bind; [by apply lockstep_imshow|intros _ _ _].
  eapply lockstep_bind; [by apply lockstep_axes_method|intros t3 t4 _].
  eapply lockstep_bind; [by apply lockstep_invoke|intros _ _ _].
  eapply lockstep_bind; [by apply lockstep_axes_method|intros t5 t6 _].
  eapply lockstep_bind; [by apply lockstep_invoke|intros _ _ _].
  eapply lockstep_bind; [by apply lockstep_axes_method|intros t7 t8 _].
  eapply lockstep_bind; [by apply lockstep_shape_at|intros c' ? <-].
  eapply lockstep_bind; [by apply lockstep_invoke|intros _ _ _].
  eapply lockstep_bind; [by apply lockstep_axes_method|intros t9 t10 _].
  eapply lockstep_bind; [by apply lockstep_shape_at|intros r' ? <-].
  by apply lockstep_invoke.
Qed.

Lemma lockstep_plot_channels a1 a2 :
  shape a1 = shape a2 → lockstep eq (plot_channels B a1) (plot_channels B a2).
Proof.
  intros Ha. unfold plot_channels.
  eapply lockstep_bind; [by apply lockstep_shape_at|intros n ? <-].
  eapply lockstep_bind; [by apply lockstep_subplots|intros axs1 axs2 Haxs].
  eapply lockstep_bind; [by apply lockstep_shape_at|intros n' ? <-].
  eapply lockstep_bind; [by apply lockstep_iter_ndarray|intros cs1 cs2 Hcs].
  eapply lockstep_bind; [by apply lockstep_iter_axobj|intros xs1 xs2 Hxs].
  eapply lockstep_bind.
  - apply lockstep_for_each.
    eapply Forall2_impl; [exact (zip3_Forall2 _ _ _ _ _ _ (py_range 0 n') Hcs Hxs)|].
    intros [[c1 x1] i1] [[c2 x2] i2] (Hc & Hx & Hi). simpl in *. subst i2.
    by apply lockstep_plot_channel.
  - intros _ _ _.
    eapply lockstep_bind; [by apply lockstep_invoke|intros _ _ _].
    by apply lockstep_invoke.
Qed.

Lemma lockstep_configuration (m1 m2 : @M pixel unit) w1 w2 :
  lockstep eq m1 m2 →
  configuration (emitted m1 w1) = configuration (emitted m2 w2).
Proof.
  intros H. destruct (H w1 w2) as (cs1 & cs2 & E1 & E2 & Ecs & _).
  unfold emitted. rewrite (calls_since_app _ _ _ E1), (calls_since_app _ _ _ E2).
  by rewrite <- (configuration_erase cs1), Ecs, configuration_erase.
Qed.

End Lockstep.

Lemma mpl_fault_erase {pixel} (tr1 tr2 : list (call pixel)) c1 c2 :
  erase c1 = erase c2 → mpl_fault tr1 c1 = mpl_fault tr2 c2.
Proof. destruct c1, c2; simpl; intros E; try done; by simplify_eq. Qed.

(** ** On well-formed input every exception is the library's *)

Lemma zip3_snd {A C D} (xs : list A) (ys : list C) (zs : list D) (Q : C → Prop) :
  Forall Q ys → Forall (λ item, Q item.1.2) (zip3 xs ys zs).
Proof.
  intros H. revert xs zs.
  induction H as [|y ys Hy _ IH]; intros xs zs.
  - destruct xs; simpl; constructor.
  - destruct xs as [|x xs], zs as [|z zs]; simpl; try constructor; [exact Hy | apply IH].
Qed.

Section LibraryOnly.

Context {pixel : Type}.
Variable B : backend pixel.
Implicit Types w : world pixel.

Lemma emitted_log_call (c : call pixel) w w' :
  length (trace w) ≤ length (trace w') →
  calls_since w (log_call c w') = calls_since w w' ++ [c].
Proof. intros Hle. unfold calls_since, log_call. simpl. by rewrite drop_app_le. Qed.

Lemma calls_since_refl w : calls_since w w = [].
Proof. unfold calls_since. apply drop_all. Qed.

Lemma plot_image_steps w a R C rest :
  shape a = R :: C :: rest →
  ∃ k, k ≤ 6 ∧
    emitted (plot_image B a) w = take k (image_script (mem w) a R C) ∧
    1 ≤ k ∧
    ((∃ w', plot_image B a w = Return tt w') → k = 6).
Proof.
  intros Ha. unfold emitted, plot_image, shape_at, imshow, py_range, image_script.
  rewrite Ha. simpl.
  unfold mbind, M_bind, mret, M_ret, read_pixels, invoke. simpl.
  rewrite !Nat.sub_0_r, ?Ha.
  repeat (destruct (fault B _ _); simpl);
    repeat (rewrite emitted_log_call by (simpl; rewrite ?length_app; lia));
    rewrite calls_since_refl; simpl.
  1: exists 1. 2: exists 2. 3: exists 3. 4: exists 4. 5: exists 5.
  6, 7: exists 6.
  all: repeat split; try lia; try done.
  all: by intros [w' Hw'].
Qed.

Lemma library_only_silent {A} (m : @M pixel A) :
  (∀ w, ∃ a, m w = Return a w) → library_only B m.
Proof.
  intros Hm w. destruct (Hm w) as [a E]. exists [].
  rewrite E. simpl. rewrite app_nil_r. split; [done|]. intros e w' [=].
Qed.

Lemma library_only_ret {A} (a : A) : library_only B (mret a : @M pixel A).
Proof. apply library_only_silent. intros w. by exists a. Qed.

Lemma library_only_read_pixels a : library_only B (read_pixels (pixel:=pixel) a).
Proof. apply library_only_silent. intros w. by eexists. Qed.

Lemma library_only_shape_at a k :
  k < length (shape a) → library_only B (shape_at (pixel:=pixel) a k).
Proof.
  intros Hk. unfold shape_at.
  destruct (shape a !! k) as [n|] eqn:E; [apply library_only_ret|].
  apply lookup_ge_None in E. lia.
Qed.

Lemma library_only_iter_ndarray a :
  1 ≤ length (shape a) → library_only B (iter_ndarray (pixel:=pixel) a).
Proof.
  intros Ha. unfold iter_ndarray.
  destruct (shape a); [simpl in Ha; lia | apply library_only_ret].
Qed.

Lemma library_only_invoke c : library_only B (invoke B c).
Proof.
  intros w. exists [c]. unfold invoke.
  destruct (fault B (trace w) c) as [e|] eqn:Hfault; simpl; (split; [done|]).
  - intros e' w' [= <- _]. exists [], c. by rewrite app_nil_r.
  - intros e' w' [=].
Qed.

Lemma library_only_bind {A C} (m : @M pixel A) (k : A → M C) :
  library_only B m → (∀ a, returns m a → library_only B (k a)) →
  library_only B (m ≫= k).
Proof.
  intros Hm Hk w. rewrite run_bind.
  destruct (Hm w) as (cs1 & E1 & G1).
  destruct (m w) as [a w1|e w1] eqn:Em; simpl in *.
  - destruct (Hk a (ex_intro _ w (ex_intro _ w1 Em)) w1) as (cs2 & E2 & G2).
    exists (cs1 ++ cs2). split; [by rewrite E2, E1, app_assoc|].
    intros e w' Hr. destruct (G2 e w' Hr) as (pre & c & -> & Hfault).
    exists (cs1 ++ pre), c. split; [by rewrite app_assoc|].
    by rewrite app_assoc, <- E1.
  - exists cs1. split; [done|]. intros e0 w' [= <- <-]. by apply (G1 e w1).
Qed.

Lemma library_only_for_each {A} (body : A → @M pixel unit) l :
  Forall (λ x, library_only B (body x)) l → library_only B (for_each body l).
Proof.
  induction 1 as [|x l Hx _ IH]; simpl.
  - apply library_only_ret.
  - apply library_only_bind; [exact Hx | intros _ _; exact IH].
Qed.

Lemma library_only_imshow t a cmap aspect e :
  library_only B (imshow B t a cmap aspect e).
Proof.
  unfold imshow. apply library_only_bind; [apply library_only_read_pixels|].
  intros data _. apply library_only_invoke.
Qed.

Ltac library_step :=
  apply library_only_bind;
  [ first [ apply library_only_shape_at; lia | apply library_only_imshow
          | apply library_only_invoke | apply library_only_ret ]
  | intros ? _ ].

Lemma library_only_plot_image a :
  2 ≤ length (shape a) → library_only B (plot_image B a).
Proof.
  intros Ha. unfold plot_image. repeat library_step. apply library_only_invoke.
Qed.

Lemma library_only_plot_channel channel h i :
  2 ≤ length (shape channel) →
  library_only B (plot_channel B (channel, Axes h, i)).
Proof.
  intros Hc. unfold plot_channel, axes_method.
  repeat library_step. apply library_only_invoke.
Qed.

Lemma returns_iter_axobj_row row xs :
  returns (iter_axobj (pixel:=pixel) (AxesRow row)) xs → xs = Axes <$> row.
Proof. intros (w & w' & E). simpl in E. by injection E as <- _. Qed.

Lemma library_only_channels_loop a row :
  3 ≤ length (shape a) → library_only B (channels_loop B a (AxesRow row)).
Proof.
  intros Ha. unfold channels_loop.
  apply library_only_bind; [apply library_only_shape_at; lia | intros n _].
  apply library_only_bind; [apply library_only_iter_ndarray; lia | intros cs Hcs].
  apply library_only_bind; [apply library_only_ret | intros xs Hxs].
  apply returns_iter_ndarray in Hcs as (k & rest & Hshape & ->).
  apply returns_iter_axobj_row in Hxs as ->.
  apply library_only_bind.
  - apply library_only_for_each.
    assert (Hdims : Forall (λ c : ndarray, 2 ≤ length (shape c)) (subarray a rest <$> seq 0 k)).
    { apply Forall_fmap, Forall_forall. intros j _. simpl.
      rewrite Hshape in Ha. simpl in Ha. lia. }
    assert (Haxes : Forall (λ o, ∃ h, o = Axes h) (Axes <$> row)).
    { apply Forall_fmap, Forall_forall. intros h _. simpl. eauto. }
    pose proof (zip3_fst _ (Axes <$> row) (py_range 0 n) _ Hdims) as H1.
    pose proof (zip3_snd (subarray a rest <$> seq 0 k) _ (py_range 0 n) _ Haxes) as H2.
    rewrite Forall_forall in H1, H2. apply Forall_forall.
    intros [[channel ax] i] Hitem.
    specialize (H1 _ Hitem). destruct (H2 _ Hitem) as [h Hax].
    simpl in H1, Hax. subst ax. by apply library_only_plot_channel.
  - intros _ _. library_step. apply library_only_invoke.
Qed.

Lemma emits_weaken (P Q : call pixel → Prop) {A} (m : @M pixel A) :
  (∀ c, P c → Q c) → emits P m → emits Q m.
Proof.
  intros HPQ Hm w. destruct (Hm w) as (cs & E & Hcs). exists cs.
  split; [done|]. by eapply Forall_impl.
Qed.

Lemma returns_axes_method_eq o t :
  returns (axes_method (pixel:=pixel) o) t → ∃ h, o = Axes h ∧ t = OnAxes h.
Proof.
  intros (w & w' & E). destruct o; simpl in E; try discriminate.
  injection E as <- _. eauto.
Qed.

Lemma emits_plot_channel_on channel ax i :
  emits (λ c, regions_of c = None ∧
              ∀ t, target_of c = Some t → ∃ h, ax = Axes h ∧ t = OnAxes h)
        (plot_channel B (channel, ax, i)).
Proof.
  set (P := λ c : call pixel, regions_of c = None ∧
              ∀ t, target_of c = Some t → ∃ h, ax = Axes h ∧ t = OnAxes h).
  assert (Hon : ∀ h c, ax = Axes h → regions_of c = None →
                       target_of c = Some (OnAxes h) → emits P (invoke B c)).
  { intros h c Hax Hr Ht. apply emits_invoke. split; [done|].
    intros t Ht'. rewrite Ht in Ht'. injection Ht' as <-. eauto. }
  unfold plot_channel.
  apply emits_bind; [apply emits_axes_method|intros t1 (h1 & Hax & ->)%returns_axes_method_eq].
  apply emits_bind; [apply emits_shape_at|intros nc _].
  apply emits_bind; [apply emits_shape_at|intros nr _].
  apply emits_bind.
  { apply emits_imshow. intros data. split; [done|].
    intros t [= <-]. eauto. }
  intros _ _.
  apply emits_bind; [apply emits_axes_method|intros t2 (h2 & Hax2 & ->)%returns_axes_method_eq].
  apply emits_bind; [by apply (Hon h2)|intros _ _].
  apply emits_bind; [apply emits_axes_method|intros t3 (h3 & Hax3 & ->)%returns_axes_method_eq].
  apply emits_bind; [by apply (Hon h3)|intros _ _].
  apply emits_bind; [apply emits_axes_method|intros t4 (h4 & Hax4 & ->)%returns_axes_method_eq].
  apply emits_bind; [apply emits_shape_at|intros nc' _].
  apply emits_bind; [by apply (Hon h4)|intros _ _].
  apply emits_bind; [apply emits_axes_method|intros t5 (h5 & Hax5 & ->)%returns_axes_method_eq].
  apply emits_bind; [apply emits_shape_at|intros nr' _].
  by apply (Hon h5).
Qed.

Lemma returns_iter_axobj o xs :
  returns (iter_axobj (pixel:=pixel) o) xs →
  Forall (λ x, ∀ h, x = Axes h → h ∈ handles_of o) xs.
Proof.
  intros (w & w' & E). destruct o as [a|row|rows]; simpl in E; try discriminate;
    injection E as <- _; apply Forall_fmap, Forall_forall; intros x Hx; simpl.
  - by intros h [= <-].
  - intros h [=].
Qed.

Lemma emits_channels_loop a axs :
  emits (loop_call_ok axs) (channels_loop B a axs).
Proof.
  unfold channels_loop.
  apply emits_bind; [apply emits_shape_at|intros n _].
  apply emits_bind; [apply emits_iter_ndarray|intros cs _].
  apply emits_bind; [apply emits_iter_axobj|intros xs Hxs%returns_iter_axobj].
  apply emits_bind.
  - apply emits_for_each.
    eapply Forall_impl; [exact (zip3_snd cs xs (py_range 0 n) _ Hxs)|].
    intros [[channel ax] i] Hax. simpl in Hax.
    eapply emits_weaken; [|apply emits_plot_channel_on].
    intros c [Hr Ht]. split; [done|].
    intros t Htarget. destruct (Ht t Htarget) as (h & -> & ->). eauto.
  - intros _ _.
    apply emits_bind; [by apply emits_invoke|intros _ _].
    by apply emits_invoke.
Qed.

(** The first thing [plot_channels] does with a stack of one dimension or
    more is the call of [subplots]. *)
Lemma plot_channels_split w a N rest :
  shape a = N :: rest →
  (∃ e, fault B (trace w) (Subplots 1 N) = Some e ∧
        plot_channels B a w = Raise e (log_call (Subplots 1 N) w)) ∨
  (fault B (trace w) (Subplots 1 N) = None ∧
   plot_channels B a w =
   channels_loop B a (pack B (grid_ids (fresh w) 1 N)) (after_subplots N w)).
Proof.
  intros Ha. unfold plot_channels.
  erewrite run_return by (unfold shape_at; by rewrite Ha).
  rewrite run_bind. unfold subplots, invoke.
  destruct (fault B (trace w) (Subplots 1 N)) as [e|]; [left; by exists e|].
  right. split; [done|]. cbn [log_call mem trace fresh].
  unfold after_subplots. by rewrite Nat.mul_1_l.
Qed.

Lemma emitted_after_subplots {A} (o : outcome A) w N cs :
  trace (final o) = trace (after_subplots N w) ++ cs →
  calls_since w (final o) = Subplots 1 N :: cs.
Proof.
  intros E. apply calls_since_app. rewrite E. simpl. by rewrite <- app_assoc.
Qed.

Lemma library_only_run f a w :
  operable B f a w →
  ∀ e w', run B f a w = Raise e w' →
    ∃ pre c, emitted (run B f a) w = pre ++ [c] ∧
             fault B (trace w ++ pre) c = Some e.
Proof.
  destruct f; simpl.
  - intros Ha e w' Hr.
    destruct (library_only_plot_image a Ha w) as (cs & Etrace & Hcs).
    unfold emitted. rewrite (calls_since_app _ _ _ Etrace). by apply (Hcs e w').
  - intros [Ha [row Hrow]] e w' Hr.
    destruct (shape a) as [|N rest] eqn:Hshape; [simpl in Ha; lia|].
    simpl in Hrow. unfold emitted.
    destruct (plot_channels_split w a N rest Hshape) as [(e0 & Hfault & E)|[Hfault E]].
    + rewrite E in Hr |- *. injection Hr as <- _.
      exists [], (Subplots 1 N). rewrite app_nil_r. split; [|done].
      by apply calls_since_app.
    + rewrite E in Hr |- *. rewrite Hrow in Hr |- *.
      assert (Ha' : 3 ≤ length (shape a)) by (rewrite Hshape; exact Ha).
      destruct (library_only_channels_loop a row Ha' (after_subplots N w))
        as (cs & Etrace & Hcs).
      destruct (Hcs e w' Hr) as (pre & c & -> & Hc).
      exists (Subplots 1 N :: pre), c. split.
      * by apply emitted_after_subplots.
      * simpl in Hc. by rewrite <- app_assoc in Hc.
Qed.

Lemma run_asks_library f a w :
  min_dims f ≤ length (shape a) → emitted (run B f a) w ≠ [].
Proof.
  destruct f; simpl; intros Ha.
  - destruct (shape a) as [|R [|C rest]] eqn:Hshape; [simpl in Ha; lia..|].
    destruct (plot_image_steps w a R C rest Hshape) as (k & _ & -> & Hk & _).
    destruct k; [lia | done].
  - destruct (shape a) as [|N rest] eqn:Hshape; [simpl in Ha; lia|].
    unfold emitted.
    destruct (plot_channels_split w a N rest Hshape) as [(e0 & Hfault & E)|[Hfault E]].
    + rewrite E. by rewrite (calls_since_app _ _ [Subplots 1 N]).
    + rewrite E.
      destruct (emits_channels_loop a (pack B (grid_ids (fresh w) 1 N))
                  (after_subplots N w)) as (cs & Etrace & _).
      by rewrite (emitted_after_subplots _ w N cs Etrace).
Qed.

End LibraryOnly.

(** * The claims *)

Section Claims.

Context {pixel : Type}.
Implicit Types w : world pixel.

Lemma emitted_plot_image w a R C :
  shape a = [R; C] →
  emitted (plot_image matplotlib a) w = image_calls (mem w) a R C.
Proof.
  intros Ha. unfold emitted. rewrite (plot_image_matplotlib w a R C Ha).
  by apply calls_since_app.
Qed.

Lemma elem_of_upto (i n : nat) : i ∈ seq 0 (n + 1) ↔ i ≤ n.
Proof. rewrite elem_of_seq. lia. Qed.

(** C2: for an image of shape (R, C) with R >= 1 and C >= 1, [plot_image]
    returns, and the ticks it configures are exactly the integers 0..C
    on the x axis and 0..R on the y axis: C+1 and R+1 ticks, one more
    than the number of columns and rows. *)
Theorem plot_image_ticks w a R C :
  1 ≤ R → 1 ≤ C → shape a = [R; C] →
  ∃ xs ys,
    (∃ w', plot_image matplotlib a w = Return tt w') ∧
    omap xticks_of (emitted (plot_image matplotlib a) w) = [xs] ∧
    omap yticks_of (emitted (plot_image matplotlib a) w) = [ys] ∧
    xs = seq 0 (C + 1) ∧ ys = seq 0 (R + 1) ∧
    length xs = C + 1 ∧ length ys = R + 1 ∧
    (∀ i, i ∈ xs ↔ i ≤ C) ∧ (∀ i, i ∈ ys ↔ i ≤ R).
Proof.
  intros _ _ Ha. exists (seq 0 (C + 1)), (seq 0 (R + 1)).
  rewrite (emitted_plot_image w a R C Ha), (plot_image_matplotlib w a R C Ha).
  rewrite !length_seq.
  repeat split; eauto; by apply elem_of_upto.
Qed.

(** C4: for an image of shape (R, C), [plot_image] returns, having
    displayed the image once: its one imshow call is given the image, of
    shape (R, C) and with its pixels, in gray, with equal aspect ratio and
    the extent [0, C] horizontally and [0, R] vertically, and is followed
    by the red grid of width 1; the ticks, where the grid lines are drawn,
    are integer coordinates inside that extent. *)
Theorem plot_image_extent w a R C :
  shape a = [R; C] →
  (∃ w', plot_image matplotlib a w = Return tt w') ∧
  emitted (plot_image matplotlib a) w =
    [ Imshow Pyplot [R; C] (ndarray_data (mem w) a) "gray" "equal" [0; C; 0; R];
      Grid Pyplot "red" 1;
      SetXticks Pyplot (seq 0 (C + 1));
      SetYticks Pyplot (seq 0 (R + 1));
      TightLayout;
      ShowFigure ] ∧
  omap data_of (emitted (plot_image matplotlib a) w) = [ndarray_data (mem w) a] ∧
  omap extent_of (emitted (plot_image matplotlib a) w) = [[0; C; 0; R]] ∧
  omap aspect_of (emitted (plot_image matplotlib a) w) = ["equal"] ∧
  (∀ l i, l ∈ omap xticks_of (emitted (plot_image matplotlib a) w) →
          i ∈ l → 0 ≤ i ≤ C) ∧
  (∀ l i, l ∈ omap yticks_of (emitted (plot_image matplotlib a) w) →
          i ∈ l → 0 ≤ i ≤ R).
Proof.
  intros Ha.
  rewrite (emitted_plot_image w a R C Ha), (plot_image_matplotlib w a R C Ha).
  split; [eauto|]. do 4 (split; [done|]).
  split; intros l i Hl Hi; apply list_elem_of_singleton in Hl as ->;
    apply elem_of_upto in Hi; lia.
Qed.

(** C5: neither function writes to the array it is given: after the
    call, whatever its outcome, every buffer holds what it held before,
    and so does the input array. *)
Theorem renderers_leave_array_unchanged (B : backend pixel) f a w :
  mem (final (run B f a w)) = mem w ∧
  ndarray_data (mem (final (run B f a w))) a = ndarray_data (mem w) a.
Proof.
  assert (H : mem (final (run B f a w)) = mem w).
  { destruct f; [apply frames_plot_image | apply frames_plot_channels]. }
  by rewrite H.
Qed.

(** C6: [plot_image] on a 1x1 array returns without an error, and the
    ticks it configures are [0, 1] on both axes. *)
Theorem plot_image_1x1 w a :
  shape a = [1; 1] →
  (∃ w', plot_image matplotlib a w = Return tt w') ∧
  omap xticks_of (emitted (plot_image matplotlib a) w) = [[0; 1]] ∧
  omap yticks_of (emitted (plot_image matplotlib a) w) = [[0; 1]].
Proof.
  intros Ha.
  rewrite (emitted_plot_image w a 1 1 Ha), (plot_image_matplotlib w a 1 1 Ha).
  eauto.
Qed.

(** C7: on an empty channel stack (N = 0) [plot_channels] fails at once,
    at its first call into the library, with the library's ValueError
    for a grid without columns; nothing is drawn, and the outcome is the
    same whatever the state of the library and the rest of the shape. *)
Theorem plot_channels_empty_stack w a rest :
  shape a = 0 :: rest →
  plot_channels matplotlib a w = Raise ValueError (log_call (Subplots 1 0) w) ∧
  emitted (plot_channels matplotlib a) w = [Subplots 1 0].
Proof.
  intros Ha.
  assert (H : plot_channels matplotlib a w = Raise ValueError (log_call (Subplots 1 0) w))
    by by apply (plot_channels_rejected matplotlib w a rest).
  split; [done|]. unfold emitted. rewrite H. by apply calls_since_app.
Qed.

(** C8: neither function validates its input or handles an error.
    Whenever the library raises an error during a call of either
    function, that call into the library is the last one made and the
    library's error, unchanged, is the outcome; an exception that leaves
    either function is the library's, from the last call made, or one
    that Python raises for a missing index, iteration or method; on an
    input on which these all exist, every exception is the library's; and
    no input with the dimensions of the first shape access is turned away
    before the library is called. *)
Theorem renderers_propagate_backend_errors (B : backend pixel) f a w :
  (∀ pre c post e,
     emitted (run B f a) w = pre ++ c :: post →
     fault B (trace w ++ pre) c = Some e →
     post = [] ∧
     run B f a w = Raise e (final (run B f a w)) ∧
     trace (final (run B f a w)) = trace w ++ pre ++ [c]) ∧
  (∀ e w',
     run B f a w = Raise e w' →
     python_error e ∨
     ∃ pre c, emitted (run B f a) w = pre ++ [c] ∧
              fault B (trace w ++ pre) c = Some e) ∧
  (operable B f a w →
   ∀ e w',
     run B f a w = Raise e w' →
     ∃ pre c, emitted (run B f a) w = pre ++ [c] ∧
              fault B (trace w ++ pre) c = Some e) ∧
  (min_dims f ≤ length (shape a) → emitted (run B f a) w ≠ []).
Proof.
  assert (Hp : propagates B (run B f a)).
  { destruct f; [apply propagates_plot_image | apply propagates_plot_channels]. }
  destruct (Hp w) as (cs & Etrace & Hcs & Horigin).
  split; [|split; [|split]].
  - unfold emitted. rewrite (calls_since_app _ _ _ Etrace).
    intros pre c post e -> Hfault.
    destruct (Hcs pre c post e eq_refl Hfault) as [-> Hr].
    by rewrite Etrace.
  - unfold emitted. rewrite (calls_since_app _ _ _ Etrace). exact Horigin.
  - apply library_only_run.
  - apply run_asks_library.
Qed.

(** C9: subplot count, extents, titles and ticks configured by either
    function depend on the shape of the array only: two calls on arrays
    of the same shape, whatever their pixels and whatever the state the
    library is in, configure the same. *)
Theorem configuration_depends_on_shape_only f a1 a2 w1 w2 :
  shape a1 = shape a2 →
  configuration (emitted (run matplotlib f a1) w1) =
  configuration (emitted (run matplotlib f a2) w2).
Proof.
  intros Ha. apply lockstep_configuration. destruct f; simpl.
  - apply lockstep_plot_image; [intros ????; apply mpl_fault_erase | done].
  - apply lockstep_plot_channels;
      [intros ????; apply mpl_fault_erase | apply squeeze_same_form | done].
Qed.


Lemma titles_channel_calls (m : gmap nat (list pixel)) a R C first (l : list nat) :
  omap title_of (concat (channel_calls m a R C first <$> l)) =
  (λ i, "Channel " +:+ pretty i) <$> l.
Proof.
  induction l as [|i l IH]; [done|].
  rewrite !fmap_cons. cbn [concat]. by rewrite omap_app, IH.
Qed.

Lemma regions_channel_calls (m : gmap nat (list pixel)) a R C first (l : list nat) :
  omap regions_of (concat (channel_calls m a R C first <$> l)) = [].
Proof.
  induction l as [|i l IH]; [done|].
  rewrite !fmap_cons. cbn [concat]. by rewrite omap_app, IH.
Qed.

(** What C3 describes, for stacks of two channels or more: one row of N
    subplots is created, then channel i is drawn on subplot i and titled
    "Channel i", for i = 0, ..., N-1 in this order. *)
Lemma plot_channels_two_or_more w a N R C :
  2 ≤ N → shape a = [N; R; C] →
  (∃ w', plot_channels matplotlib a w = Return tt w') ∧
  emitted (plot_channels matplotlib a) w =
    Subplots 1 N ::
    concat (channel_calls (mem w) a R C (fresh w) <$> seq 0 N) ++
    [TightLayout; ShowFigure] ∧
  omap regions_of (emitted (plot_channels matplotlib a) w) = [(1, N)] ∧
  omap title_of (emitted (plot_channels matplotlib a) w) =
    (λ i, "Channel " +:+ pretty i) <$> seq 0 N.
Proof.
  intros HN Ha.
  assert (E : emitted (plot_channels matplotlib a) w =
    Subplots 1 N :: concat (channel_calls (mem w) a R C (fresh w) <$> seq 0 N) ++
    [TightLayout; ShowFigure]).
  { unfold emitted. rewrite (plot_channels_matplotlib w a N R C HN Ha).
    by apply calls_since_app. }
  rewrite E, (plot_channels_matplotlib w a N R C HN Ha).
  split; [eauto|]. split; [done|].
  change (Subplots 1 N :: ?l) with ([Subplots (pixel:=pixel) 1 N] ++ l).
  rewrite !omap_app, titles_channel_calls, regions_channel_calls.
  split; [done|]. cbn [omap list_omap title_of app]. by rewrite app_nil_r.
Qed.

End Claims.

(** C1 (not met by the code): [plot_channels] on a stack of exactly one
    channel should render that channel like any other and raise no
    iteration error.  On the stack of shape (1, 2, 3) it raises TypeError:
    [subplots(1, 1)] hands back the Axes object itself, and [zip] cannot
    iterate it. *)
Theorem plot_channels_one_channel_raises :
  plot_channels matplotlib stack_1x2x3 idle =
  Raise TypeError {| mem := buffer6; trace := [Subplots 1 1]; fresh := 1 |}.
Proof. exact (plot_channels_single idle stack_1x2x3 [2; 3] eq_refl). Qed.

(** C3 (not met by the code for N = 1): [plot_channels] should create N
    subplots in one row and render and title channel i on subplot i, for
    every N >= 1.  On the stack of shape (1, 2, 3) the one subplot is
    created, and then no channel is drawn and no title is set. *)
Theorem plot_channels_one_channel_untitled :
  omap regions_of (emitted (plot_channels matplotlib stack_1x2x3) idle) = [(1, 1)] ∧
  omap title_of (emitted (plot_channels matplotlib stack_1x2x3) idle) = [] ∧
  omap extent_of (emitted (plot_channels matplotlib stack_1x2x3) idle) = [].
Proof. by vm_compute. Qed.

(** ** The claims at sample inputs *)

Lemma plot_image_ticks_witness :
  ∃ xs ys,
    (∃ w', plot_image matplotlib image_2x3 idle = Return tt w') ∧
    omap xticks_of (emitted (plot_image matplotlib image_2x3) idle) = [xs] ∧
    omap yticks_of (emitted (plot_image matplotlib image_2x3) idle) = [ys] ∧
    xs = [0; 1; 2; 3] ∧ ys = [0; 1; 2] ∧
    length xs = 4 ∧ length ys = 3 ∧
    (∀ i, i ∈ xs ↔ i ≤ 3) ∧ (∀ i, i ∈ ys ↔ i ≤ 2).
Proof.
  apply (plot_image_ticks idle image_2x3 2 3); [lia | lia | reflexivity].
Defined.

Lemma plot_image_extent_witness :
  (∃ w', plot_image matplotlib image_2x3 idle = Return tt w') ∧
  emitted (plot_image matplotlib image_2x3) idle =
    [ Imshow Pyplot [2; 3] [5; 6; 7; 8; 9; 10]%Z "gray" "equal" [0; 3; 0; 2];
      Grid Pyplot "red" 1;
      SetXticks Pyplot [0; 1; 2; 3];
      SetYticks Pyplot [0; 1; 2];
      TightLayout;
      ShowFigure ].
Proof.
  destruct (plot_image_extent idle image_2x3 2 3 eq_refl) as (Hret & Hcalls & _).
  split; [exact Hret | exact Hcalls].
Defined.

Lemma plot_image_1x1_witness :
  omap xticks_of (emitted (plot_image matplotlib image_1x1) idle) = [[0; 1]] ∧
  omap yticks_of (emitted (plot_image matplotlib image_1x1) idle) = [[0; 1]].
Proof. apply (plot_image_1x1 idle image_1x1). reflexivity. Defined.

Lemma plot_channels_empty_stack_witness :
  plot_channels matplotlib stack_0x2x3 busy =
  Raise ValueError (log_call (Subplots 1 0) busy).
Proof. apply (plot_channels_empty_stack busy stack_0x2x3 [2; 3]). reflexivity. Defined.

Lemma renderers_propagate_backend_errors_witness :
  run headless PlotImage image_2x3 idle =
  Raise (BackendError 1) (final (run headless PlotImage image_2x3 idle)).
Proof.
  apply (proj1 (renderers_propagate_backend_errors headless PlotImage image_2x3 idle)
           [ Imshow Pyplot [2; 3] [5; 6; 7; 8; 9; 10]%Z "gray" "equal" [0; 3; 0; 2];
             Grid Pyplot "red" 1;
             SetXticks Pyplot [0; 1; 2; 3];
             SetYticks Pyplot [0; 1; 2];
             TightLayout ]
           ShowFigure [] (BackendError 1));
    reflexivity.
Defined.

Lemma configuration_depends_on_shape_only_witness :
  configuration (emitted (run matplotlib PlotChannels stack_2x1x3) idle) =
  configuration (emitted (run matplotlib PlotChannels stack_2x1x3) busy).
Proof.
  apply (configuration_depends_on_shape_only PlotChannels stack_2x1x3 stack_2x1x3 idle busy).
  reflexivity.
Defined.


(** * Further properties of the two functions *)

Section Further.

Context {pixel : Type}.
Implicit Types w : world pixel.

(** ** Arrays of too few dimensions *)

(** X1: an array with fewer dimensions than the first shape access of the
    function needs ([image.shape[1]], [channels.shape[0]]) makes it raise
    IndexError before anything is asked of the library: the state is the
    one before the call. *)
Theorem too_few_dimensions (B : backend pixel) f a w :
  length (shape a) < min_dims f → run B f a w = Raise IndexError w.
Proof.
  destruct f; simpl; unfold plot_image, plot_channels, shape_at.
  - destruct (shape a) as [|r [|c rest]]; simpl; [done | done | lia].
  - destruct (shape a) as [|n rest]; simpl; [done | lia].
Qed.

(** ** The calls of [plot_image], for any library *)

(** X2: whatever the library does, [plot_image] on an array of two or more
    dimensions makes its calls in the order imshow, grid, xticks, yticks,
    tight_layout, show, with the arguments of the source, and stops at the
    first one that fails, and only there: the calls made are a non-empty
    prefix of these six, and all six when it returns; a call the library
    rejects is the last one made; and when not all six are made, the last
    one made was rejected and its exception is the outcome. *)
Theorem plot_image_calls_prefix (B : backend pixel) w a R C rest :
  shape a = R :: C :: rest →
  emitted (plot_image B a) w `prefix_of` image_script (mem w) a R C ∧
  emitted (plot_image B a) w ≠ [] ∧
  ((∃ w', plot_image B a w = Return tt w') →
   emitted (plot_image B a) w = image_script (mem w) a R C) ∧
  (∀ pre c post e,
     emitted (plot_image B a) w = pre ++ c :: post →
     fault B (trace w ++ pre) c = Some e →
     post = [] ∧ plot_image B a w = Raise e (final (plot_image B a w))) ∧
  (emitted (plot_image B a) w ≠ image_script (mem w) a R C →
   ∃ pre c e,
     emitted (plot_image B a) w = pre ++ [c] ∧
     fault B (trace w ++ pre) c = Some e ∧
     plot_image B a w = Raise e (final (plot_image B a w))).
Proof.
  intros Ha.
  destruct (plot_image_steps B w a R C rest Ha) as (k & Hk & Ek & Hk1 & Hret).
  destruct (propagates_plot_image B a w) as (cs & Etrace & Hcs & _).
  assert (Ecs : emitted (plot_image B a) w = cs)
    by (by apply calls_since_app).
  split; [rewrite Ek; apply prefix_take|]. split.
  { rewrite Ek. destruct k; [lia | done]. }
  split.
  { intros Hr. by rewrite Ek, (Hret Hr). }
  split.
  { rewrite Ecs. intros pre c post e -> Hfault.
    by apply (Hcs pre c post e). }
  intros Hshort.
  destruct (plot_image B a w) as [[] w1|e w1] eqn:Hrun.
  - exfalso. apply Hshort. rewrite Ek, Hret by eauto. done.
  - assert (Ha2 : 2 ≤ length (shape a)) by (rewrite Ha; simpl; lia).
    destruct (library_only_plot_image B a Ha2 w) as (cs' & Etrace' & Hlib).
    rewrite Hrun in Etrace'. simpl in Etrace, Etrace'.
    assert (cs' = cs) as -> by (apply (app_inv_head (trace w)); congruence).
    destruct (Hlib e w1 Hrun) as (pre & c & -> & Hfault).
    exists pre, c, e. by rewrite Ecs.
Qed.

(** ** What each function addresses *)

(** X3: whatever the library does, [plot_image] creates no subplots, sets
    no title, and draws on pyplot's current axes only, never on an Axes
    object. *)
Theorem plot_image_current_axes_only (B : backend pixel) a w :
  Forall (λ c, regions_of c = None ∧ title_of c = None ∧
               ∀ t, target_of c = Some t → t = Pyplot)
         (emitted (plot_image B a) w).
Proof.
  set (P := λ c : call pixel, regions_of c = None ∧ title_of c = None ∧
               ∀ t, target_of c = Some t → t = Pyplot).
  assert (Hinv : ∀ c, P c → emits P (invoke B c)) by (intros; by apply emits_invoke).
  assert (Hm : emits P (plot_image B a)).
  { unfold plot_image.
    repeat (apply emits_bind; [first [apply emits_shape_at | apply emits_imshow; intros
                                     | apply Hinv] | intros ? _]);
      try apply Hinv; unfold P; simpl; repeat split; by intros ? [= <-]. }
  destruct (Hm w) as (cs & Etrace & Hcs).
  unfold emitted. by rewrite (calls_since_app _ _ _ Etrace).
Qed.

Lemma returns_axes_method o t :
  returns (axes_method (pixel:=pixel) o) t → ∃ h, t = OnAxes h.
Proof.
  intros (w & w' & E). destruct o; simpl in E; try discriminate.
  injection E as <- _. eauto.
Qed.

Lemma zip3_third {A C D} (xs : list A) (ys : list C) (zs : list D) (Q : D → Prop) :
  Forall Q zs → Forall (λ item, Q item.2) (zip3 xs ys zs).
Proof.
  intros H. revert xs ys.
  induction H as [|z zs Hz _ IH]; intros xs ys.
  - destruct xs, ys; simpl; constructor.
  - destruct xs as [|x xs], ys as [|y ys]; simpl; try constructor; [exact Hz | apply IH].
Qed.

Lemma emits_plot_channel_ok (B : backend pixel) N channel ax i :
  i < N → emits (channels_call_ok N) (plot_channel B (channel, ax, i)).
Proof.
  intros Hi. unfold plot_channel.
  assert (Hinv : ∀ c, channels_call_ok N c → emits (channels_call_ok N) (invoke B c))
    by (intros; by apply emits_invoke).
  assert (Hshape : ∀ k, emits (channels_call_ok N) (shape_at (pixel:=pixel) channel k))
    by (intros; apply emits_shape_at).
  apply emits_bind; [apply emits_axes_method|intros t1 [h1 ->]%returns_axes_method].
  apply emits_bind; [apply Hshape|intros nc _].
  apply emits_bind; [apply Hshape|intros nr _].
  apply emits_bind.
  { apply emits_imshow. intros data. repeat split; simpl; try done.
    intros ? [= <-]. eauto. }
  intros _ _.
  apply emits_bind; [apply emits_axes_method|intros t2 [h2 ->]%returns_axes_method].
  apply emits_bind.
  { apply Hinv. repeat split; simpl; try done. intros ? [= <-]. eauto. }
  intros _ _.
  apply emits_bind; [apply emits_axes_method|intros t3 [h3 ->]%returns_axes_method].
  apply emits_bind.
  { apply Hinv. repeat split; simpl; try done.
    - intros ? [= <-]. eauto.
    - intros ? [= <-]. eauto. }
  intros _ _.
  apply emits_bind; [apply emits_axes_method|intros t4 [h4 ->]%returns_axes_method].
  apply emits_bind; [apply Hshape|intros nc' _].
  apply emits_bind.
  { apply Hinv. repeat split; simpl; try done. intros ? [= <-]. eauto. }
  intros _ _.
  apply emits_bind; [apply emits_axes_method|intros t5 [h5 ->]%returns_axes_method].
  apply emits_bind; [apply Hshape|intros nr' _].
  apply Hinv. repeat split; simpl; try done. intros ? [= <-]. eauto.
Qed.

Lemma plot_channels_calls_ok (B : backend pixel) w a N rest :
  shape a = N :: rest →
  Forall (channels_call_ok N) (emitted (plot_channels B a) w).
Proof.
  intros Ha.
  assert (Hm : emits (channels_call_ok N) (plot_channels B a)).
  { unfold plot_channels.
    apply emits_bind; [apply emits_shape_at|intros n Hn%returns_shape_at].
    rewrite Ha in Hn. injection Hn as <-.
    apply emits_bind.
    { apply emits_subplots.
      split; [|split]; simpl; [by intros ?? [= <- <-] | done | done]. }
    intros axs _.
    apply emits_bind; [apply emits_shape_at|intros n' Hn'%returns_shape_at].
    rewrite Ha in Hn'. injection Hn' as <-.
    apply emits_bind; [apply emits_iter_ndarray|intros cs _].
    apply emits_bind; [apply emits_iter_axobj|intros xs _].
    apply emits_bind.
    - apply emits_for_each.
      assert (Hlt : Forall (λ i, i < N) (py_range 0 N)).
      { apply Forall_forall. intros i Hi. unfold py_range in Hi.
        apply elem_of_seq in Hi. lia. }
      eapply Forall_impl; [exact (zip3_third cs xs _ _ Hlt)|].
      intros [[channel ax] i] Hi. by apply emits_plot_channel_ok.
    - intros _ _.
      apply emits_bind; [by apply emits_invoke|intros _ _].
      by apply emits_invoke. }
  destruct (Hm w) as (cs & Etrace & Hcs).
  unfold emitted. by rewrite (calls_since_app _ _ _ Etrace).
Qed.

(** X4: whatever the library does, [plot_channels] on a stack of N
    channels asks only for a grid of one row and N columns, and every
    image, grid, title and tick call it makes is addressed to one of the
    Axes objects [subplots] returned to it, never to pyplot's current
    axes nor to any other Axes. *)
Theorem plot_channels_one_row_on_axes (B : backend pixel) w a N rest :
  shape a = N :: rest →
  Forall (λ c, (∀ r k, regions_of c = Some (r, k) → r = 1 ∧ k = N) ∧
               (∀ t, target_of c = Some t →
                  ∃ h, t = OnAxes h ∧
                       h ∈ handles_of (pack B (grid_ids (fresh w) 1 N))))
         (emitted (plot_channels B a) w).
Proof.
  intros Ha. unfold emitted.
  destruct (plot_channels_split B w a N rest Ha) as [(e & Hfault & ->)|[Hfault ->]].
  - rewrite (calls_since_app _ _ [Subplots 1 N]) by done.
    constructor; [|constructor]. split; [by intros r k [= <- <-] | by intros t [=]].
  - destruct (emits_channels_loop B a (pack B (grid_ids (fresh w) 1 N))
                (after_subplots N w)) as (cs & Etrace & Hcs).
    rewrite (emitted_after_subplots _ w N cs Etrace).
    constructor.
    + split; [by intros r k [= <- <-] | by intros t [=]].
    + eapply Forall_impl; [exact Hcs|].
      intros c [Hr Ht]. split; [|exact Ht].
      intros r k Hrk. by rewrite Hr in Hrk.
Qed.

(** X5: whatever the library does and however many axes it hands back,
    every title [plot_channels] sets on a stack of N channels is
    "Channel i" for an index i below N. *)
Theorem plot_channels_titles_in_range (B : backend pixel) w a N rest s :
  shape a = N :: rest →
  s ∈ omap title_of (emitted (plot_channels B a) w) →
  ∃ i, i < N ∧ s = "Channel " +:+ pretty i.
Proof.
  intros Ha Hs. apply list_elem_of_omap in Hs as (c & Hc & Htitle).
  pose proof (plot_channels_calls_ok B w a N rest Ha) as Hall.
  rewrite Forall_forall in Hall.
  destruct (Hall c Hc) as (_ & _ & Ht). by apply Ht.
Qed.

(** ** Runs of [plot_channels] on matplotlib, channel by channel *)

Lemma plot_channels_loop w a N rest :
  2 ≤ N → shape a = N :: rest →
  plot_channels matplotlib a w =
  (for_each (plot_channel matplotlib) (channel_items a rest (fresh w) N);;
   invoke matplotlib TightLayout;;
   invoke matplotlib ShowFigure) (after_subplots N w).
Proof.
  intros HN Ha. unfold plot_channels.
  erewrite run_return by (apply shape_at_some; by rewrite Ha).
  erewrite run_return by by apply subplots_row.
  erewrite run_return by (apply shape_at_some; by rewrite Ha).
  unfold iter_ndarray. rewrite Ha.
  erewrite run_return by reflexivity.
  erewrite run_return by reflexivity.
  unfold py_range. rewrite Nat.sub_0_r.
  replace (seq (fresh w) N) with (Nat.add (fresh w) <$> seq 0 N)
    by (by rewrite fmap_add_seq, Nat.add_0_r).
  rewrite <- list_fmap_compose.
  by rewrite (zip3_fmap (subarray a rest) (Axes ∘ Nat.add (fresh w))).
Qed.

(** X6: on a stack whose channels have fewer than two dimensions,
    [plot_channels] on matplotlib first creates the N subplots and only
    then raises IndexError, at [channel.shape[1]] of the first channel:
    an empty figure is left behind and nothing is drawn or shown. *)
Theorem plot_channels_flat_channels w a N rest :
  2 ≤ N → shape a = N :: rest → length rest < 2 →
  plot_channels matplotlib a w = Raise IndexError (after_subplots N w).
Proof.
  intros HN Ha Hrest. rewrite (plot_channels_loop w a N rest HN Ha).
  unfold channel_items. destruct N as [|N]; [lia|].
  cbn [seq]. rewrite fmap_cons. cbn [for_each].
  apply run_raise, run_raise.
  unfold plot_channel, axes_method, shape_at. cbn [shape subarray].
  destruct rest as [|r [|c rest]]; simpl in *; [done | done | lia].
Qed.

(** ** What a run on a stack of two channels or more displays *)

Lemma emitted_plot_channels w a N R C :
  2 ≤ N → shape a = [N; R; C] →
  emitted (plot_channels matplotlib a) w =
  Subplots 1 N ::
  concat (channel_calls (mem w) a R C (fresh w) <$> seq 0 N) ++
  [TightLayout; ShowFigure].
Proof.
  intros HN Ha. unfold emitted.
  rewrite (plot_channels_matplotlib w a N R C HN Ha).
  by apply calls_since_app.
Qed.

Lemma channel_title_inj : Inj (=) (=) (λ i : nat, "Channel " +:+ pretty i).
Proof. intros i j Hij. simpl in Hij. by simplify_eq. Qed.

(** X8: the titles of one call are pairwise different, and there are as
    many as channels: a title names one subplot. *)
Theorem plot_channels_titles_distinct w a N R C :
  2 ≤ N → shape a = [N; R; C] →
  NoDup (omap title_of (emitted (plot_channels matplotlib a) w)) ∧
  length (omap title_of (emitted (plot_channels matplotlib a) w)) = N.
Proof.
  intros HN Ha.
  destruct (plot_channels_two_or_more w a N R C HN Ha) as (_ & _ & _ & ->).
  split.
  - apply (@NoDup_fmap_2 nat string _ channel_title_inj), NoDup_seq.
  - by rewrite length_fmap, length_seq.
Qed.

Lemma chunks_concat (l : list pixel) k o N :
  concat ((λ i, take k (drop (o + i * k) l)) <$> seq 0 N) = take (N * k) (drop o l).
Proof.
  revert o. induction N as [|N IH]; intros o; [done|].
  cbn [seq]. rewrite fmap_cons. cbn [concat].
  rewrite <- fmap_S_seq, <- list_fmap_compose.
  rewrite (list_fmap_ext _ (λ i, take k (drop (o + k + i * k) l))).
  - rewrite IH, Nat.add_0_r, <- drop_drop. apply take_take_drop.
  - intros _ i _. simpl. f_equal. f_equal. lia.
Qed.

Lemma data_channel_calls (m : gmap nat (list pixel)) a R C first (l : list nat) :
  omap data_of (concat (channel_calls m a R C first <$> l)) =
  (λ i, ndarray_data m (subarray a [R; C] i)) <$> l.
Proof.
  induction l as [|i l IH]; [done|].
  rewrite !fmap_cons. cbn [concat]. by rewrite omap_app, IH.
Qed.

(** X9: the images a call of [plot_channels] displays are the stack cut
    into its channels: put one after the other, in the order displayed,
    their pixels are the pixels of the stack, each one once. *)
Theorem plot_channels_displays_whole_stack w a N R C :
  2 ≤ N → shape a = [N; R; C] →
  concat (omap data_of (emitted (plot_channels matplotlib a) w)) =
  ndarray_data (mem w) a.
Proof.
  intros HN Ha. rewrite (emitted_plot_channels w a N R C HN Ha).
  change (Subplots 1 N :: ?l) with ([Subplots (pixel:=pixel) 1 N] ++ l).
  rewrite !omap_app, data_channel_calls.
  cbn [omap list_omap data_of app]. rewrite app_nil_r.
  unfold ndarray_data, ndarray_size. rewrite Ha. cbn [shape subarray foldr offset base].
  apply chunks_concat.
Qed.

Lemma calls_on_channel_calls (m : gmap nat (list pixel)) a R C first i (l : list nat) :
  NoDup l →
  calls_on (first + i) (concat (channel_calls m a R C first <$> l)) =
  if decide (i ∈ l) then channel_calls m a R C first i else [].
Proof.
  unfold calls_on. induction 1 as [|j l Hj Hl IH].
  - by rewrite decide_False by apply not_elem_of_nil.
  - rewrite fmap_cons. cbn [concat]. rewrite filter_app, IH.
    destruct (decide (j = i)) as [->|Hne].
    + rewrite (decide_False (P:=i ∈ l)) by done.
      rewrite (decide_True (P:=i ∈ i :: l)) by apply list_elem_of_here.
      rewrite app_nil_r.
      unfold channel_calls. cbn [target_of].
      by rewrite !filter_cons_True, filter_nil.
    + assert (Hne' : OnAxes (first + j) ≠ OnAxes (first + i))
        by (intros [= ?]; lia).
      assert (Hnil : filter (λ c, target_of c = Some (OnAxes (first + i)))
                       (channel_calls m a R C first j) = []).
      { unfold channel_calls.
        rewrite !filter_cons_False by (cbn [target_of]; congruence).
        apply filter_nil. }
      rewrite Hnil. cbn [app].
      destruct (decide (i ∈ l)) as [Hi|Hi].
      * by rewrite decide_True by by apply list_elem_of_further.
      * rewrite decide_False; [done|].
        intros [?|?]%elem_of_cons; [congruence | done].
Qed.

(** X10: [plot_channels] draws channel i on subplot i the way [plot_image]
    draws that channel alone: the same pixels, aspect, extent and ticks;
    and it titles that subplot "Channel i" and no other. *)
Theorem channel_drawn_like_image w w' a N R C i :
  2 ≤ N → shape a = [N; R; C] → i < N → mem w' = mem w →
  rendering (calls_on (fresh w + i) (emitted (plot_channels matplotlib a) w)) =
  rendering (emitted (plot_image matplotlib (subarray a [R; C] i)) w') ∧
  omap title_of (calls_on (fresh w + i) (emitted (plot_channels matplotlib a) w)) =
  ["Channel " +:+ pretty i].
Proof.
  intros HN Ha Hi Hmem.
  rewrite (emitted_plot_channels w a N R C HN Ha).
  rewrite (emitted_plot_image w' (subarray a [R; C] i) R C eq_refl), Hmem.
  change (Subplots 1 N :: ?l) with ([Subplots (pixel:=pixel) 1 N] ++ l).
  unfold calls_on at 1 2. rewrite !filter_app.
  fold (calls_on (fresh w + i)
          (concat (channel_calls (mem w) a R C (fresh w) <$> seq 0 N))).
  rewrite calls_on_channel_calls by apply NoDup_seq.
  rewrite decide_True by (apply elem_of_seq; lia).
  done.
Qed.

End Further.

(** ** The further properties at sample inputs *)

Lemma too_few_dimensions_witness :
  run headless PlotImage vector_6 idle = Raise IndexError idle.
Proof. apply (too_few_dimensions headless PlotImage vector_6 idle). simpl. lia. Defined.

Lemma plot_image_calls_prefix_witness :
  emitted (plot_image headless image_2x3) idle `prefix_of`
  image_script buffer6 image_2x3 2 3.
Proof. apply (plot_image_calls_prefix headless idle image_2x3 2 3 []). reflexivity. Defined.

Lemma plot_channels_one_row_on_axes_witness :
  Forall (λ c : call Z,
            (∀ r k, regions_of c = Some (r, k) → r = 1 ∧ k = 2) ∧
            (∀ t, target_of c = Some t → ∃ h, t = OnAxes h ∧ h ∈ [0; 1]))
         (emitted (plot_channels matplotlib stack_2x1x3) idle).
Proof.
  apply (plot_channels_one_row_on_axes matplotlib idle stack_2x1x3 2 [1; 3]).
  reflexivity.
Defined.

Lemma plot_channels_titles_in_range_witness :
  ∃ i, i < 2 ∧ "Channel 1" = "Channel " +:+ pretty i.
Proof.
  apply (plot_channels_titles_in_range matplotlib idle stack_2x1x3 2 [1; 3] "Channel 1").
  - reflexivity.
  - apply (bool_decide_unpack _). vm_compute. exact I.
Defined.

Lemma plot_channels_flat_channels_witness :
  plot_channels matplotlib stack_2x3 idle = Raise IndexError (after_subplots 2 idle).
Proof.
  apply (plot_channels_flat_channels idle stack_2x3 2 [3]);
    [lia | reflexivity | simpl; lia].
Defined.

Lemma plot_channels_titles_distinct_witness :
  NoDup (omap title_of (emitted (plot_channels matplotlib stack_2x1x3) idle)) ∧
  length (omap title_of (emitted (plot_channels matplotlib stack_2x1x3) idle)) = 2.
Proof.
  apply (plot_channels_titles_distinct idle stack_2x1x3 2 1 3); [lia | reflexivity].
Defined.

Lemma plot_channels_displays_whole_stack_witness :
  concat (omap data_of (emitted (plot_channels matplotlib stack_2x1x3) idle)) =
  [5; 6; 7; 8; 9; 10]%Z.
Proof.
  apply (plot_channels_displays_whole_stack idle stack_2x1x3 2 1 3);
    [lia | reflexivity].
Defined.

Lemma channel_drawn_like_image_witness :
  rendering (calls_on 1 (emitted (plot_channels matplotlib stack_2x1x3) idle)) =
  rendering (emitted (plot_image matplotlib (subarray stack_2x1x3 [1; 3] 1)) busy').
Proof.
  apply (channel_drawn_like_image idle busy' stack_2x1x3 2 1 3 1);
    [lia | reflexivity | lia | reflexivity].
Defined.
